(** * The medicine inventory store: a shallow embedding

    The development follows the three TypeScript modules of the admin
    dashboard:

    - the inventory store ([useMedicineStore]): [getStockStatus],
      [fetchMedicines], [addMedicine], [updateMedicine], [approveMedicine];
    - the ledger service ([@/blockchain/service]): [getMedicineOnChain],
      [addMedicineOnChain];
    - the stock page: [getUIStockStatus].

    JavaScript objects are finite maps from property names to values,
    numbers are IEEE 754 binary64 values in the form of the Standard
    Library's [spec_float], and the asynchronous operations are
    computations in a state and exception monad whose state holds the
    store's snapshot and the log of the calls made to the outside world.

    An operation is run alone, from its first statement to the value its
    promise settles to; two operations in flight at once are not
    described. Writes to the console are left out. The database, the
    contract, the wallet and the clock are functions of the calls made
    before. *)

From Stdlib Require Import Floats.SpecFloat.
From stdpp Require Import gmap strings list fin_maps.

#[local] Set Warnings "-register-all".

Open Scope string_scope.

(* ===================================================================== *)
(** ** JavaScript numbers *)
(* ===================================================================== *)

Module Num.

(** A JavaScript [number] is a binary64 float. [spec_float] has the
    signed zeros, the infinities, the single NaN and the finite values
    [(-1)^s * m * 2^e]. *)
Abbreviation number := spec_float (only parsing).

Definition NaN : number := S754_nan.
Definition zero : number := S754_zero false.
(** 1 = 2^52 * 2^-52, 50 = 50 * 2^47 * 2^-47: the normalised mantissas
    of binary64. *)
Definition one : number := S754_finite false 4503599627370496 (-52).
Definition five : number := S754_finite false 5629499534213120 (-50).
Definition thirty : number := S754_finite false 8444249301319680 (-48).
Definition ten : number := S754_finite false 5629499534213120 (-49).
Definition fifty : number := S754_finite false 7036874417766400 (-47).
Definition fifty_one : number := S754_finite false 7177611906121728 (-47).

(** [a <= b] and [a < b] of JavaScript: false as soon as one side is
    NaN. *)
Definition le (a b : number) : bool := SFleb a b.
Definition lt (a b : number) : bool := SFltb a b.

(** [+0], [-0] and NaN are the falsy numbers. *)
Definition truthy (n : number) : bool :=
  match n with
  | S754_zero _ | S754_nan => false
  | _ => true
  end.

End Num.

Abbreviation number := Num.number (only parsing).

(* ===================================================================== *)
(** ** JavaScript values, conversions and exceptions *)
(* ===================================================================== *)

(** The values a Firestore document, a form payload or a contract result
    is made of. A plain object is a finite map from property names to
    values; reading a property it does not have gives [undefined]. *)
Inductive value :=
| VUndefined
| VNull
| VBool (b : bool)
| VNum (n : number)
| VBigInt (z : Z)
| VStr (s : string)
| VArr (items : list value)
| VObj (props : gmap string value).

Abbreviation obj := (gmap string value) (only parsing).

(** What a [throw] or a rejected promise carries. *)
Inductive exn :=
| Error (message : string)
| TypeError (message : string)
| Rejected (reason : value).

(** A settled promise: rejected with an exception or fulfilled. *)
Abbreviation Result := (sum exn) (only parsing).

(** The conversions of ECMAScript that a decimal or date parser stands
    behind are taken as given: [StringToNumber] for [Number(s)] on a
    string, [BigIntToNumber] for [Number(n)] on a bigint,
    [ObjectToNumber] for [Number(o)] on an array or an object, and
    [epochSeconds v] for
    [Math.floor(new Date(v).getTime() / 1000)]. *)
Record Builtins := {
  StringToNumber : string → number;
  BigIntToNumber : Z → number;
  ObjectToNumber : value → number;
  epochSeconds : value → number
}.

Module JS.

(** [o.k] on a plain object. *)
Definition get (o : obj) (k : string) : value :=
  default VUndefined (o !! k).

(** [v.k] on any value: a [TypeError] on [undefined] and [null],
    [undefined] on the primitives and arrays for the property names
    used here. *)
Definition getProp (v : value) (k : string) : Result value :=
  match v with
  | VUndefined | VNull =>
      inl (TypeError "Cannot read properties of undefined or null")
  | VObj o => inr (get o k)
  | _ => inr VUndefined
  end.

(** [Boolean(v)], also the test of [if (v)] and of [v || w]. *)
Definition ToBoolean (v : value) : bool :=
  match v with
  | VUndefined | VNull => false
  | VBool b => b
  | VNum n => Num.truthy n
  | VBigInt z => negb (z =? 0)%Z
  | VStr s => negb (String.eqb s EmptyString)
  | VArr _ | VObj _ => true
  end.

(** [Number(v)]. *)
Definition ToNumber (js : Builtins) (v : value) : number :=
  match v with
  | VUndefined => Num.NaN
  | VNull => Num.zero
  | VBool true => Num.one
  | VBool false => Num.zero
  | VNum n => n
  | VBigInt z => BigIntToNumber js z
  | VStr s => StringToNumber js s
  | VArr _ | VObj _ => ObjectToNumber js v
  end.

(** [[...v]]: the elements of an array, the characters of a string, a
    [TypeError] on what is not iterable. *)
Definition spread (v : value) : Result (list value) :=
  match v with
  | VArr items => inr items
  | VStr s => inr ((λ c, VStr (String c EmptyString)) <$> String.list_ascii_of_string s)
  | _ => inl (TypeError "value is not iterable")
  end.

(** [v || w]. *)
Definition or (v w : value) : value := if ToBoolean v then v else w.

End JS.

(* ===================================================================== *)
(** ** The status classifier *)
(* ===================================================================== *)

(** [getStockStatus] of the store. *)
Definition getStockStatus (quantity : number) : string :=
  if Num.le quantity Num.zero then "Out of Stock"
  else if Num.le quantity Num.fifty then "Low Stock"
  else "In Stock".

(** [getUIStockStatus] of the stock page. *)
Definition getUIStockStatus (qty : number) : string :=
  if Num.le qty Num.zero then "Out of Stock"
  else if Num.le qty Num.fifty then "Low Stock"
  else "In Stock".


(* ===================================================================== *)
(** ** Asynchronous computations *)
(* ===================================================================== *)

(** An [async] function body run to completion over a state [S]: it
    settles to a rejection or a value and leaves a state behind; what was
    written before a [throw] stays written. *)
Definition M (S A : Type) : Type := S → Result A * S.

Definition ret {S A} (a : A) : M S A := λ s, (inr a, s).

Definition throw {S A} (e : exn) : M S A := λ s, (inl e, s).

Definition bind {S A B} (c : M S A) (k : A → M S B) : M S B :=
  λ s, match c s with
       | (inr a, s') => k a s'
       | (inl e, s') => (inl e, s')
       end.

(** [try { body } catch (e) { handler }]. *)
Definition try_catch {S A} (body : M S A) (handler : exn → M S A) : M S A :=
  λ s, match body s with
       | (inl e, s') => handler e s'
       | (inr a, s') => (inr a, s')
       end.

(** [try { body } finally { cleanup }]. *)
Definition try_finally {S A} (body : M S A) (cleanup : M S unit) : M S A :=
  λ s, let '(r, s') := body s in
       match cleanup s' with
       | (inl e, s'') => (inl e, s'')
       | (inr _, s'') => (r, s'')
       end.

(** The outcome of a synchronous step that may throw. *)
Definition settle {S A} (r : Result A) : M S A := λ s, (r, s).

Declare Scope async_scope.
Delimit Scope async_scope with async.
Notation "x <- c ;; k" := (bind c (λ x, k))
  (at level 100, c at next level, right associativity) : async_scope.
Notation "c ;; k" := (bind c (λ _, k))
  (at level 100, right associativity) : async_scope.
Open Scope async_scope.

(* ===================================================================== *)
(** ** The outside world *)
(* ===================================================================== *)

(** The [{ name, batch, ..., exists }] object the ledger read resolves
    to. *)
Module ChainData.
Record t := {
  name : value;
  batch : value;
  manufacturer : value;
  price : number;
  stock : number;
  mfgDate : number;
  expDate : number;
  exists_ : bool
}.
End ChainData.

(** The seven arguments of the ledger write. *)
Module WriteArgs.
Record t := {
  name : value;
  batch : value;
  manufacturer : value;
  price : number;
  stock : number;
  mfgDate : number;
  expDate : number
}.
End WriteArgs.

(** The calls that leave the program, in the order they are made. *)
Inductive event :=
| EvFirestoreList
| EvFirestoreAdd (fields : obj)
| EvFirestoreUpdate (id : string) (fields : obj)
| EvContractRead (batch : value)
| EvContractWrite (args : WriteArgs.t)
| EvClock.

(** How the collaborators answer. Each answer may depend on everything
    that was called before, so the ledger and the database may change
    between two calls.

    [firestore_list], [firestore_add] and [firestore_update] stand for
    [getMedicinesFromFirestore], [addMedicineToFirestore] and
    [updateMedicineInFirestore] of [@/lib/firebase/medicines];
    [contract_getMedicine] for [contract.getMedicine];
    [window_ethereum] for the presence of [window.ethereum];
    [contract_addMedicine] for obtaining the signer, sending
    [addMedicine] and waiting for the transaction, resolving to
    [tx.hash]; [clock] for [new Date().toISOString()]. *)
Record Env := {
  firestore_list : list event → Result (list obj);
  firestore_add : list event → obj → Result obj;
  firestore_update : list event → string → obj → Result obj;
  contract_getMedicine : list event → value → Result value;
  window_ethereum : bool;
  contract_addMedicine : list event → WriteArgs.t → Result value;
  clock : list event → string
}.

(** Computations that only talk to the outside world. *)
Abbreviation IO := (M (list event)) (only parsing).

(** One call: the answer is taken and the call is logged. *)
Definition call {A} (ev : event) (answer : list event → Result A) : IO A :=
  λ t, (answer t, (t ++ [ev])%list).

(* ===================================================================== *)
(** ** The ledger service *)
(* ===================================================================== *)

Module Service.
Section Service.

Variable js : Builtins.
Variable env : Env.

(** [getMedicineOnChain]: the read wrapper. Every failure inside the
    [try], the rejected call or a property read on a missing result,
    ends in [return null]. *)
Definition getMedicineOnChain (batch : value) : IO (option ChainData.t) :=
  try_catch
    (data <- call (EvContractRead batch) (λ t, contract_getMedicine env t batch) ;;
     name <- settle (JS.getProp data "name") ;;
     batch' <- settle (JS.getProp data "batch") ;;
     manufacturer <- settle (JS.getProp data "manufacturer") ;;
     price <- settle (JS.getProp data "price") ;;
     stock <- settle (JS.getProp data "stock") ;;
     mfgDate <- settle (JS.getProp data "mfgDate") ;;
     expDate <- settle (JS.getProp data "expDate") ;;
     exists_ <- settle (JS.getProp data "exists") ;;
     ret (Some {| ChainData.name := name;
                  ChainData.batch := batch';
                  ChainData.manufacturer := manufacturer;
                  ChainData.price := JS.ToNumber js price;
                  ChainData.stock := JS.ToNumber js stock;
                  ChainData.mfgDate := JS.ToNumber js mfgDate;
                  ChainData.expDate := JS.ToNumber js expDate;
                  ChainData.exists_ := JS.ToBoolean exists_ |}))
    (λ err, ret None).

(** [addMedicineOnChain]: the write wrapper. Its [catch] rethrows. *)
Definition addMedicineOnChain (args : WriteArgs.t) : IO value :=
  try_catch
    (if negb (window_ethereum env)
     then throw (Error "MetaMask not installed!")
     else
       let sent :=
         {| WriteArgs.name := WriteArgs.name args;
            WriteArgs.batch := WriteArgs.batch args;
            WriteArgs.manufacturer := WriteArgs.manufacturer args;
            WriteArgs.price := JS.ToNumber js (VNum (WriteArgs.price args));
            WriteArgs.stock := JS.ToNumber js (VNum (WriteArgs.stock args));
            WriteArgs.mfgDate := JS.ToNumber js (VNum (WriteArgs.mfgDate args));
            WriteArgs.expDate := JS.ToNumber js (VNum (WriteArgs.expDate args)) |} in
       call (EvContractWrite sent) (λ t, contract_addMedicine env t sent))
    (λ err, throw err).

End Service.
End Service.

(* ===================================================================== *)
(** ** The inventory store *)
(* ===================================================================== *)

(** The snapshot the store publishes. *)
Record MedicineState := {
  medicines : list obj;
  isInitialized : bool;
  error : option string;
  loading : bool
}.

(** The store's initial snapshot. *)
Definition initialState : MedicineState :=
  {| medicines := []; isInitialized := false; error := None; loading := false |}.

(** What an operation of the store runs over: the snapshot and the log
    of the calls made so far. *)
Record World := {
  store : MedicineState;
  calls : list event
}.

(** A computation of the outside world run from inside the store. *)
Definition liftIO {A} (io : IO A) : M World A :=
  λ w, let '(r, t) := io (calls w) in (r, {| store := store w; calls := t |}).

(** zustand's [set]: the next snapshot is computed from the current one. *)
Definition set_ (f : MedicineState → MedicineState) : M World unit :=
  λ w, (inr (), {| store := f (store w); calls := calls w |}).

Module Store.
Section Store.

Variable js : Builtins.
Variable env : Env.

(** The two imports from [@/blockchain/service]. *)
Variable getMedicineOnChain : value → IO (option ChainData.t).
Variable addMedicineOnChain : WriteArgs.t → IO value.

(** The three imports from [@/lib/firebase/medicines]. *)
Definition getMedicinesFromFirestore : IO (list obj) :=
  call EvFirestoreList (firestore_list env).

Definition addMedicineToFirestore (fields : obj) : IO obj :=
  call (EvFirestoreAdd fields) (λ t, firestore_add env t fields).

Definition updateMedicineInFirestore (id : string) (fields : obj) : IO obj :=
  call (EvFirestoreUpdate id fields) (λ t, firestore_update env t id fields).

(** [set({ loading })]. *)
Definition setLoading (b : bool) : M World unit :=
  set_ (λ s, {| medicines := medicines s;
                isInitialized := isInitialized s;
                error := error s;
                loading := b |}).

(** [set({ medicines })] and [set((state) => ({ medicines: f(state.medicines) }))]. *)
Definition setMedicines (f : list obj → list obj) : M World unit :=
  set_ (λ s, {| medicines := f (medicines s);
                isInitialized := isInitialized s;
                error := error s;
                loading := loading s |}).

(** [chainData && chainData.exists]. *)
Definition reportsExisting (chainData : option ChainData.t) : bool :=
  match chainData with
  | Some cd => ChainData.exists_ cd
  | None => false
  end.

(** The body of the [for] loop of [fetchMedicines] once the ledger has
    answered: the assignments to [med]. The loop writes into the objects
    the list call resolved to; they are that call's own, none of them is
    an object the store already holds, so the writes show only in
    [merged]. *)
Definition mergeRecord (chainData : option ChainData.t) (med : obj) : obj :=
  let med1 :=
    match chainData with
    | Some cd =>
        if ChainData.exists_ cd then
          <["manufacturer" := ChainData.manufacturer cd]>
            (<["price" := VNum (ChainData.price cd)]>
               (<["stock" := VNum (ChainData.stock cd)]>
                  (<["ledgerStatus" := VStr "On-Chain"]> med)))
        else <["ledgerStatus" := VStr "Pending Confirmation"]> med
    | None => <["ledgerStatus" := VStr "Pending Confirmation"]> med
    end in
  <["stockStatus" := VStr (getStockStatus (JS.ToNumber js (JS.get med1 "stock")))]> med1.

(** [for (const med of meds) { ...; merged.push(med) }]. *)
Fixpoint mergeLoop (meds merged : list obj) : IO (list obj) :=
  match meds with
  | [] => ret merged
  | med :: rest =>
      chainData <- getMedicineOnChain (JS.get med "batchNo") ;;
      mergeLoop rest (merged ++ [mergeRecord chainData med])%list
  end.

(** The [try] block of [fetchMedicines]. *)
Definition fetchAttempt : M World unit :=
  meds <- liftIO getMedicinesFromFirestore ;;
  merged <- liftIO (mergeLoop meds []) ;;
  set_ (λ s, {| medicines := merged;
                isInitialized := true;
                error := error s;
                loading := false |}).

Definition fetchMedicines : M World unit :=
  setLoading true ;;
  try_catch fetchAttempt
    (λ err, set_ (λ s, {| medicines := medicines s;
                          isInitialized := isInitialized s;
                          error := Some "Failed to fetch medicines";
                          loading := false |})).

(** The arguments [addMedicine] hands to the ledger write. *)
Definition writeArgs (payload : obj) : WriteArgs.t :=
  {| WriteArgs.name := JS.get payload "name";
     WriteArgs.batch := JS.get payload "batchNo";
     WriteArgs.manufacturer := JS.get payload "manufacturer";
     WriteArgs.price := JS.ToNumber js (JS.get payload "price");
     WriteArgs.stock := JS.ToNumber js (JS.get payload "quantity");
     WriteArgs.mfgDate := epochSeconds js (JS.get payload "mfgDate");
     WriteArgs.expDate := epochSeconds js (JS.get payload "expDate") |}.

(** [let ledgerStatus = ...; if (chainData && chainData.exists) ...]. *)
Definition resolveLedgerStatus (chainData : option ChainData.t) : string :=
  if reportsExisting chainData then "On-Chain" else "Pending Confirmation".

(** [{ ...payload, txHash, ledgerStatus, onChain: ledgerStatus === "On-Chain" }]. *)
Definition newMedicineFields (payload : obj) (txHash : value) (ledgerStatus : string) : obj :=
  <["onChain" := VBool (String.eqb ledgerStatus "On-Chain")]>
    (<["ledgerStatus" := VStr ledgerStatus]>
       (<["txHash" := txHash]> payload)).

Definition addMedicine (payload : obj) : M World (option obj) :=
  setLoading true ;;
  try_finally
    (try_catch
       (txHash <- liftIO (addMedicineOnChain (writeArgs payload)) ;;
        chainData <- liftIO (getMedicineOnChain (JS.get payload "batchNo")) ;;
        let ledgerStatus := resolveLedgerStatus chainData in
        newMed <- liftIO (addMedicineToFirestore
                            (newMedicineFields payload txHash ledgerStatus)) ;;
        setMedicines (λ ms, newMed :: ms) ;;
        ret (Some newMed))
       (λ error, ret None))
    (setLoading false).

(** [m.id === id] for a string [id]. *)
Definition hasId (id : string) (m : obj) : bool :=
  match m !! "id" with
  | Some (VStr s) => String.eqb s id
  | _ => false
  end.

(** [{ ...m, ...updatedData }]: the properties of the response win. *)
Definition mergeFields (m updatedData : obj) : obj := updatedData ∪ m.

(** The [map] of [updateMedicine] together with the variable
    [updatedMed] its callback assigns. *)
Fixpoint updateMap (id : string) (updatedData : obj)
    (ms : list obj) (updatedMed : option obj) : list obj * option obj :=
  match ms with
  | [] => ([], updatedMed)
  | m :: rest =>
      if hasId id m then
        let updated := mergeFields m updatedData in
        let '(rest', last) := updateMap id updatedData rest (Some updated) in
        (updated :: rest', last)
      else
        let '(rest', last) := updateMap id updatedData rest updatedMed in
        (m :: rest', last)
  end.

Definition updateMedicine (id : string) (payload : obj) : M World (option obj) :=
  setLoading true ;;
  try_finally
    (try_catch
       (updatedData <- liftIO (updateMedicineInFirestore id payload) ;;
        (λ w,
           let '(newList, updatedMed) :=
             updateMap id updatedData (medicines (store w)) None in
           (setMedicines (λ _, newList) ;; ret updatedMed) w))
       (λ err, ret None))
    (setLoading false).

(** [{ action: "APPROVED", timestamp, changes: "Approved by Admin" }]. *)
Definition approvalEntry (timestamp : string) : value :=
  VObj (<["changes" := VStr "Approved by Admin"]>
          (<["timestamp" := VStr timestamp]>
             (<["action" := VStr "APPROVED"]> ∅))).

(** [{ ...m, listingStatus: "Approved", history: [...prior, entry] }]. *)
Definition approvedRecord (m : obj) (prior : list value) (timestamp : string) : obj :=
  <["history" := VArr (prior ++ [approvalEntry timestamp])%list]>
    (<["listingStatus" := VStr "Approved"]> m).

(** [new Date().toISOString()]. *)
Definition now : IO string := call EvClock (λ t, inr (clock env t)).

(** The [map] of [approveMedicine] together with the variable
    [approved] its callback assigns. Spreading [m.history || []] throws
    when the history is neither falsy nor iterable. *)
Fixpoint approveMap (id : string) (ms : list obj) (approved : option obj)
    : IO (list obj * option obj) :=
  match ms with
  | [] => ret ([], approved)
  | m :: rest =>
      if hasId id m then
        prior <- settle (JS.spread (JS.or (JS.get m "history") (VArr []))) ;;
        timestamp <- now ;;
        let a := approvedRecord m prior timestamp in
        r <- approveMap id rest (Some a) ;;
        ret (a :: r.1, r.2)
      else
        r <- approveMap id rest approved ;;
        ret (m :: r.1, r.2)
  end.

Definition approveMedicine (id : string) : M World (option obj) :=
  setLoading true ;;
  try_finally
    (try_catch
       (liftIO (updateMedicineInFirestore id {["listingStatus" := VStr "Approved"]}) ;;
        (λ w,
           (r <- liftIO (approveMap id (medicines (store w)) None) ;;
            setMedicines (λ _, r.1) ;;
            ret r.2) w))
       (λ err, ret None))
    (setLoading false).

End Store.
End Store.

(* ===================================================================== *)
(** ** The program: the store linked with the ledger service *)
(* ===================================================================== *)

Definition fetchMedicines (js : Builtins) (env : Env) : M World unit :=
  Store.fetchMedicines js env (Service.getMedicineOnChain js env).

Definition addMedicine (js : Builtins) (env : Env) (payload : obj) : M World (option obj) :=
  Store.addMedicine js env
    (Service.getMedicineOnChain js env) (Service.addMedicineOnChain js env) payload.

Definition updateMedicine (env : Env) (id : string) (payload : obj) : M World (option obj) :=
  Store.updateMedicine env id payload.

Definition approveMedicine (env : Env) (id : string) : M World (option obj) :=
  Store.approveMedicine env id.

(* ===================================================================== *)
(** ** Vocabulary of the statements *)
(* ===================================================================== *)

(** What the ledger read resolves to when it is issued after the calls
    [t]: the report of the ledger for [batch] at that time. *)
Definition ledgerAnswer (js : Builtins) (env : Env)
    (t : list event) (batch : value) : option ChainData.t :=
  match (Service.getMedicineOnChain js env batch t).1 with
  | inr chainData => chainData
  | inl _ => None
  end.

(** The contract call is rejected, or resolves to no result at all. *)
Definition failedRead (env : Env) (t : list event) (batch : value) : bool :=
  match contract_getMedicine env t batch with
  | inl _ | inr VUndefined | inr VNull => true
  | inr _ => false
  end.

(** A lookup of the loop over the records [meds] is rejected, in a loop
    started after the calls [t]: the lookups for the records before it
    resolved, each one issued after the calls the one before had left.
    This is read off the lookup function alone. *)
Fixpoint lookupRejected (lookup : value → IO (option ChainData.t))
    (meds : list obj) (t : list event) : bool :=
  match meds with
  | [] => false
  | med :: rest =>
      match lookup (JS.get med "batchNo") t with
      | (inl _, _) => true
      | (inr _, t') => lookupRejected lookup rest t'
      end
  end.

(** A step of a fetch started after the calls [t] fails: the list call is
    rejected, or it resolves and a lookup for one of the listed records
    is rejected. *)
Definition fetchFails (env : Env)
    (lookup : value → IO (option ChainData.t)) (t : list event) : bool :=
  match firestore_list env t with
  | inl _ => true
  | inr meds => lookupRejected lookup meds (t ++ [EvFirestoreList])%list
  end.

(** The contract, asked for [batch] after the calls [t], answers with an
    object whose [exists] is truthy. *)
Definition ledgerConfirms (env : Env) (t : list event) (batch : value) : bool :=
  match contract_getMedicine env t batch with
  | inr (VObj o) => JS.ToBoolean (JS.get o "exists")
  | _ => false
  end.

(** The ledger write [addMedicine] starts with, issued after the calls
    [t], fails: there is no [window.ethereum], or the contract call is
    rejected. *)
Definition ledgerWriteFails (js : Builtins) (env : Env)
    (t : list event) (payload : obj) : Prop :=
  window_ethereum env = false ∨
  ∃ e, contract_addMedicine env t (Store.writeArgs js payload) = inl e.

(** The records of [ms] with the identifier [id], after the response
    [updatedData] was merged into them. *)
Definition updatedRecords (id : string) (updatedData : obj) (ms : list obj) : list obj :=
  (λ m, Store.mergeFields m updatedData) <$> filter (λ m, Is_true (Store.hasId id m)) ms.

(** No record of [ms] has the identifier [id]. *)
Definition noneHasId (id : string) (ms : list obj) : Prop :=
  Forall (λ m, Store.hasId id m = false) ms.

(** The entries [approveMedicine] finds in a record: [...(m.history || [])]. *)
Definition priorHistory (m : obj) : Result (list value) :=
  JS.spread (JS.or (JS.get m "history") (VArr [])).

(** The payload [approveMedicine] sends to the database. *)
Definition approvalPayload : obj := {["listingStatus" := VStr "Approved"]}.

(** The promise was fulfilled, not rejected. *)
Definition resolves {A} (r : Result A) : bool :=
  match r with
  | inr _ => true
  | inl _ => false
  end.

(** The ledger reads [fetchMedicines] issues for the records [meds]. *)
Definition readsOf (meds : list obj) : list event :=
  (λ med, EvContractRead (JS.get med "batchNo")) <$> meds.

(** The calls made when the lookup for the record at position [i] of the
    listed records [meds] is issued, in a fetch started after [t]. *)
Definition lookupTime (t : list event) (meds : list obj) (i : nat) : list event :=
  (t ++ EvFirestoreList :: readsOf (take i meds))%list.

(** The records the merge loop builds from [meds] when it starts after
    the calls [t]. *)
Fixpoint mergeAll (js : Builtins) (env : Env) (t : list event) (meds : list obj) : list obj :=
  match meds with
  | [] => []
  | med :: rest =>
      let batch := JS.get med "batchNo" in
      Store.mergeRecord js (ledgerAnswer js env t batch) med
        :: mergeAll js env (t ++ [EvContractRead batch])%list rest
  end.

(* ===================================================================== *)
(** ** A small world to run the store in *)
(* ===================================================================== *)

Module Demo.

(** Conversions for runs in which no string, bigint, object or date is
    converted to a number that matters. *)
Definition js : Builtins :=
  {| StringToNumber := λ _, Num.NaN;
     BigIntToNumber := λ _, Num.NaN;
     ObjectToNumber := λ _, Num.NaN;
     epochSeconds := λ _, Num.zero |}.

(** A document with a [quantity] and no [stock]. *)
Definition medB1 : obj :=
  {[ "id" := VStr "m1"; "batchNo" := VStr "B1"; "name" := VStr "Paracetamol";
     "quantity" := VNum Num.thirty ]}.

(** A document with a [stock], a [price] and a [manufacturer]. *)
Definition medB2 : obj :=
  {[ "id" := VStr "m2"; "batchNo" := VStr "B2"; "name" := VStr "Aspirin";
     "stock" := VNum Num.thirty; "price" := VNum Num.one;
     "manufacturer" := VStr "Generic" ]}.

(** What the contract holds for batch B2. *)
Definition onChainB2 : value :=
  VObj {[ "name" := VStr "Aspirin"; "batch" := VStr "B2";
          "manufacturer" := VStr "Acme"; "price" := VNum Num.ten;
          "stock" := VNum Num.five; "mfgDate" := VNum Num.zero;
          "expDate" := VNum Num.zero; "exists" := VBool true ]}.

(** A payload of the add dialog. *)
Definition payloadB2 : obj :=
  {[ "name" := VStr "Aspirin"; "batchNo" := VStr "B2";
     "manufacturer" := VStr "Acme"; "price" := VNum Num.ten;
     "quantity" := VNum Num.five ]}.

(** The database lists the two documents, creates and updates what it
    is asked to; the contract knows batch B2 and rejects every other
    read; the wallet is there and every write goes through. *)
Definition env : Env :=
  {| firestore_list := λ _, inr [medB1; medB2];
     firestore_add := λ _ fields, inr (<["id" := VStr "m3"]> fields);
     firestore_update := λ _ _ fields, inr fields;
     contract_getMedicine := λ _ batch,
       match batch with
       | VStr b => if String.eqb b "B2" then inr onChainB2
                   else inl (Error "call reverted")
       | _ => inl (Error "call reverted")
       end;
     window_ethereum := true;
     contract_addMedicine := λ _ _, inr (VStr "0xabc");
     clock := λ t, if (length t <? 3)%nat then "2024-01-01T00:00:00.000Z"
                   else "2024-01-02T00:00:00.000Z" |}.

(** The same world with the database down and no wallet. *)
Definition offline : Env :=
  {| firestore_list := λ _, inl (Error "unavailable");
     firestore_add := λ _ _, inl (Error "unavailable");
     firestore_update := λ _ _ _, inl (Error "unavailable");
     contract_getMedicine := contract_getMedicine env;
     window_ethereum := false;
     contract_addMedicine := contract_addMedicine env;
     clock := clock env |}.

(** A lookup that is rejected, to link the store with. *)
Definition rejectingLookup (batch : value) : IO (option ChainData.t) :=
  throw (Error "lookup failed").

(** A store that holds the two documents. *)
Definition loaded : MedicineState :=
  {| medicines := [medB1; medB2]; isInitialized := true;
     error := None; loading := false |}.

Definition start : World := {| store := initialState; calls := [] |}.
Definition started : World := {| store := loaded; calls := [] |}.

End Demo.

(* ===================================================================== *)
(** ** Operations in sequence *)
(* ===================================================================== *)

(** What the views ask of the store, one request after the other. *)
Inductive operation :=
| OpFetch
| OpAdd (payload : obj)
| OpUpdate (id : string) (payload : obj)
| OpApprove (id : string).

(** The world an operation leaves behind. *)
Definition perform (js : Builtins) (env : Env) (op : operation) (w : World) : World :=
  match op with
  | OpFetch => (fetchMedicines js env w).2
  | OpAdd payload => (addMedicine js env payload w).2
  | OpUpdate id payload => (updateMedicine env id payload w).2
  | OpApprove id => (approveMedicine env id w).2
  end.

Definition performAll (js : Builtins) (env : Env) (ops : list operation) (w : World) : World :=
  foldl (λ w op, perform js env op w) w ops.

Definition isFetch (op : operation) : bool :=
  match op with
  | OpFetch => true
  | _ => false
  end.

(** [useMedicineStore.getState().fetchMedicines()], run when the module
    of the store is loaded. *)
Definition autoLoad (js : Builtins) (env : Env) : World :=
  (fetchMedicines js env {| store := initialState; calls := [] |}).2.

(** What a fetch adds to the log of calls. *)
Definition isRead (ev : event) : bool :=
  match ev with
  | EvFirestoreList | EvContractRead _ => true
  | _ => false
  end.

(** The answers of the database's list call and of the contract's read
    do not depend on what was called before. *)
Definition stableReads (env : Env) : Prop :=
  (∀ t t', firestore_list env t = firestore_list env t') ∧
  (∀ t t' batch, contract_getMedicine env t batch = contract_getMedicine env t' batch).

(** How [approveMedicine] changes one record of the list: a record with
    the identifier gets the status and one more entry after its prior
    ones, any other record is kept. *)
Definition approvedFrom (id : string) (m m' : obj) : Prop :=
  if Store.hasId id m
  then ∃ prior timestamp,
         priorHistory m = inr prior ∧ m' = Store.approvedRecord m prior timestamp
  else m' = m.

(** Spreading the history of some record with the identifier throws. *)
Definition historyThrows (id : string) (ms : list obj) : Prop :=
  Exists (λ m, Store.hasId id m = true ∧ resolves (priorHistory m) = false) ms.

(* ===================================================================== *)
(** ** The stock page *)
(* ===================================================================== *)

Module Page.

(** [Number(med.quantity || 0)], the quantity the page works with. *)
Definition qty (js : Builtins) (med : obj) : number :=
  JS.ToNumber js (JS.or (JS.get med "quantity") (VNum Num.zero)).

(** [getUIStockStatus(qty)], the status the page shows for a record. *)
Definition status (js : Builtins) (med : obj) : string :=
  getUIStockStatus (qty js med).

(** The accumulator of [summary], an object with four counters. The
    counters are natural numbers; [acc[status]++] is always on one of the
    three status counters. *)
Definition summaryInit : gmap string nat :=
  {[ "In Stock" := 0%nat; "Low Stock" := 0%nat; "Out of Stock" := 0%nat;
     "Total" := 0%nat ]}.

(** The callback of the [reduce]: [acc[status]++; acc.Total++]. *)
Definition summaryStep (js : Builtins) (acc : gmap string nat) (med : obj)
    : gmap string nat :=
  let acc1 := <[status js med := S (acc !!! status js med)]> acc in
  <["Total" := S (acc1 !!! "Total")]> acc1.

Definition summary (js : Builtins) (medicines : list obj) : gmap string nat :=
  foldl (summaryStep js) summaryInit medicines.

(** The callback of the [filter] of [sortedAndFilteredMedicines]. *)
Definition matchesFilter (js : Builtins) (filter : string) (med : obj) : bool :=
  if String.eqb filter "All" then true
  else String.eqb (status js med) filter.

(** [medicines.filter(...)]: the rows before they are sorted, and the
    rows shown as long as no column was chosen to sort by. *)
Definition filtered (js : Builtins) (filter : string) (medicines : list obj) : list obj :=
  List.filter (matchesFilter js filter) medicines.

(** The columns the table sorts by, and the two directions. *)
Inductive SortKey := name | manufacturer | expDate | quantity | supplyChainStatus.
Inductive Direction := ascending | descending.

Record SortConfig := { key : SortKey; direction : Direction }.

Definition sortKey_eqb (a b : SortKey) : bool :=
  match a, b with
  | name, name | manufacturer, manufacturer | expDate, expDate
  | quantity, quantity | supplyChainStatus, supplyChainStatus => true
  | _, _ => false
  end.

Definition direction_eqb (a b : Direction) : bool :=
  match a, b with
  | ascending, ascending | descending, descending => true
  | _, _ => false
  end.

(** [requestSort]: what [setSortConfig] is called with. The direction is
    descending when
    [sortConfig?.key === key && sortConfig.direction === "ascending"]. *)
Definition requestSort (sortConfig : option SortConfig) (k : SortKey) : option SortConfig :=
  let direction :=
    match sortConfig with
    | Some c =>
        if sortKey_eqb (key c) k && direction_eqb (direction c) ascending
        then descending else ascending
    | None => ascending
    end in
  Some {| key := k; direction := direction |}.

(** The two arrows of [getSortIcon]. *)
Inductive Icon := ArrowUp | ArrowDown.

Definition getSortIcon (sortConfig : option SortConfig) (k : SortKey) : option Icon :=
  match sortConfig with
  | None => None
  | Some c =>
      if negb (sortKey_eqb (key c) k) then None
      else match direction c with
           | ascending => Some ArrowUp
           | descending => Some ArrowDown
           end
  end.

(** [if (!isInitialized)]: the page shows the loader and nothing else. *)
Definition showsLoader (s : MedicineState) : bool := negb (isInitialized s).

End Page.

(* ===================================================================== *)
(** ** More worlds to run the store in *)
(* ===================================================================== *)

Module Scenario.

(** The world of [Demo.env] with a database that rejects every create. *)
Definition createFails : Env :=
  {| firestore_list := firestore_list Demo.env;
     firestore_add := λ _ _, inl (Error "permission denied");
     firestore_update := firestore_update Demo.env;
     contract_getMedicine := contract_getMedicine Demo.env;
     window_ethereum := true;
     contract_addMedicine := contract_addMedicine Demo.env;
     clock := clock Demo.env |}.

(** A record whose history is not a list: spreading it throws. *)
Definition medB3 : obj :=
  {[ "id" := VStr "m3"; "batchNo" := VStr "B3"; "history" := VNum Num.five ]}.

(** Two records under one identifier, the second with the bad history. *)
Definition twins : MedicineState :=
  {| medicines := [<["id" := VStr "m3"]> Demo.medB1; medB3];
     isInitialized := true; error := None; loading := false |}.

(** A lookup that resolves to no entry for every batch but B2, for which
    it is rejected. *)
Definition rejectingB2 (batch : value) : IO (option ChainData.t) :=
  match batch with
  | VStr b => if String.eqb b "B2" then throw (Error "lookup failed")
              else call (EvContractRead batch) (λ _, inr None)
  | _ => call (EvContractRead batch) (λ _, inr None)
  end.

(** A payload of the add dialog for the batch the contract does not
    know. *)
Definition payloadB1 : obj :=
  {[ "name" := VStr "Paracetamol"; "batchNo" := VStr "B1";
     "manufacturer" := VStr "Generic"; "price" := VNum Num.one;
     "quantity" := VNum Num.thirty ]}.

(** Two payloads of the edit dialog. *)
Definition restock : obj := {["stock" := VNum Num.five]}.
Definition reprice : obj := {["price" := VNum Num.ten]}.

(** Records with every kind of quantity the page may meet. *)
Definition stocked (n : number) : obj :=
  {[ "id" := VStr "s"; "quantity" := VNum n ]}.

Definition shelf : list obj :=
  [stocked Num.zero; stocked Num.thirty; stocked Num.fifty_one;
   Demo.medB2; stocked Num.NaN; stocked Num.five].

End Scenario.

(* ===================================================================== *)
(** * Properties *)
(* ===================================================================== *)

(** ** The status classifier *)

Lemma SFcompare_antisym a b c :
  SFcompare a b = Some c → SFcompare b a = Some (CompOpp c).
Proof.
  destruct a as [sa|sa| |sa ma ea], b as [sb|sb| |sb mb eb]; simpl;
    try discriminate; intros [= <-];
    repeat match goal with s : bool |- _ => destruct s end; simpl; try reflexivity.
  - rewrite (Z.compare_antisym ea eb). destruct (ea ?= eb)%Z; simpl; try reflexivity.
    by rewrite (Pos.compare_cont_antisym ma mb Eq).
  - rewrite (Z.compare_antisym ea eb). destruct (ea ?= eb)%Z; simpl; try reflexivity.
    by rewrite (Pos.compare_cont_antisym ma mb Eq).
Qed.

(** Not below or equal: either above, or not comparable at all. *)
Lemma not_le_iff (a b : number) :
  Num.le a b = false ↔ Num.lt b a = true ∨ a = Num.NaN ∨ b = Num.NaN.
Proof.
  unfold Num.le, Num.lt, SFleb, SFltb.
  destruct (SFcompare a b) as [c|] eqn:Hab.
  - rewrite (SFcompare_antisym _ _ _ Hab).
    assert (a ≠ Num.NaN ∧ b ≠ Num.NaN) as [Ha Hb].
    { split; intros Hn; rewrite Hn in Hab; [|destruct a]; discriminate. }
    destruct c; simpl; intuition congruence.
  - split; [intros _|done]. right.
    destruct a, b; simpl in Hab; try discriminate; auto.
Qed.

Lemma le_zero_le_fifty (q : number) :
  Num.le q Num.zero = true → Num.le q Num.fifty = true.
Proof. destruct q as [s|s| |s m e]; try destruct s; done. Qed.

Lemma lt_zero_iff (q : number) :
  Num.lt Num.zero q = true ↔ Num.le q Num.zero = false ∧ q ≠ Num.NaN.
Proof. destruct q as [s|s| |s m e]; try destruct s; cbv; intuition congruence. Qed.

(** C3, counterexample: NaN is a number, it is not above 50, and it is
    classified In Stock; so "In Stock iff q > 50" fails. *)
Lemma getStockStatus_NaN_in_stock :
  getStockStatus Num.NaN = "In Stock" ∧ Num.lt Num.fifty Num.NaN = false ∧
  ¬ (∀ q : number, getStockStatus q = "In Stock" ↔ Num.lt Num.fifty q = true).
Proof.
  split; [reflexivity|]. split; [reflexivity|].
  intros H. destruct (H Num.NaN) as [H1 _]. specialize (H1 eq_refl). discriminate.
Qed.

(** C3, amended: the classifier is total, with values among the three
    labels; it returns Out of Stock iff [q <= 0], Low Stock iff
    [0 < q <= 50], and In Stock iff [q > 50] or [q] is NaN;
    [classify(50)] is Low Stock and [classify(51)] is In Stock. The
    page's [getUIStockStatus] is the same function. *)
Theorem getStockStatus_spec (q : number) :
  (getStockStatus q = "Out of Stock" ∨ getStockStatus q = "Low Stock" ∨
   getStockStatus q = "In Stock") ∧
  (getStockStatus q = "Out of Stock" ↔ Num.le q Num.zero = true) ∧
  (getStockStatus q = "Low Stock" ↔
     Num.lt Num.zero q = true ∧ Num.le q Num.fifty = true) ∧
  (getStockStatus q = "In Stock" ↔ Num.lt Num.fifty q = true ∨ q = Num.NaN) ∧
  getStockStatus Num.fifty = "Low Stock" ∧
  getStockStatus Num.fifty_one = "In Stock" ∧
  getUIStockStatus q = getStockStatus q.
Proof.
  split_and!; try reflexivity.
  - unfold getStockStatus. repeat case_match; auto.
  - unfold getStockStatus. repeat case_match; intuition congruence.
  - rewrite lt_zero_iff. unfold getStockStatus.
    destruct (Num.le q Num.zero) eqn:H0.
    + split; [done|]. by intros [[? _] _].
    + destruct (Num.le q Num.fifty) eqn:H50.
      * split; [intros _|done]. split_and!; try done.
        intros ->. discriminate.
      * split; [done|]. by intros [_ ?].
  - unfold getStockStatus.
    destruct (Num.le q Num.zero) eqn:H0.
    + pose proof (le_zero_le_fifty _ H0) as H50. split; [done|].
      intros [Hlt| ->]; [|discriminate].
      assert (Num.le q Num.fifty = false); [|congruence].
      apply not_le_iff. by left.
    + destruct (Num.le q Num.fifty) eqn:H50.
      * split; [done|]. intros [Hlt| ->]; [|discriminate].
        assert (Num.le q Num.fifty = false); [|congruence].
        apply not_le_iff. by left.
      * split; [intros _|done]. apply not_le_iff in H50.
        destruct H50 as [?|[?|?]]; [by left|by right|discriminate].
Qed.

(** ** The ledger read *)

(** The read wrapper never rejects: it resolves to the ledger's answer and
    logs one contract read. *)
Lemma getMedicineOnChain_run js env batch t :
  Service.getMedicineOnChain js env batch t =
    (inr (ledgerAnswer js env t batch), (t ++ [EvContractRead batch])%list).
Proof.
  unfold ledgerAnswer, Service.getMedicineOnChain, try_catch, bind, call.
  destruct (contract_getMedicine env t batch) as [e|data]; [done|].
  by destruct data.
Qed.

Lemma ledgerAnswer_failedRead js env t batch :
  failedRead env t batch = true → ledgerAnswer js env t batch = None.
Proof.
  unfold failedRead, ledgerAnswer, Service.getMedicineOnChain, try_catch, bind, call.
  destruct (contract_getMedicine env t batch) as [e|data]; [done|].
  by destruct data.
Qed.

(** ** The merge loop *)

Lemma mergeLoop_run js env meds merged t :
  Store.mergeLoop js (Service.getMedicineOnChain js env) meds merged t =
    (inr (merged ++ mergeAll js env t meds)%list, (t ++ readsOf meds)%list).
Proof.
  revert merged t. induction meds as [|med rest IH]; intros merged t; simpl.
  - by rewrite !app_nil_r.
  - unfold bind. rewrite getMedicineOnChain_run, IH.
    by rewrite <-!app_assoc.
Qed.

Lemma mergeAll_length js env t meds :
  length (mergeAll js env t meds) = length meds.
Proof. revert t. induction meds; intros; simpl; auto. Qed.

Lemma mergeAll_lookup js env t meds i med :
  meds !! i = Some med →
  mergeAll js env t meds !! i =
    Some (Store.mergeRecord js
            (ledgerAnswer js env (t ++ readsOf (take i meds))%list (JS.get med "batchNo"))
            med).
Proof.
  revert t i. induction meds as [|m rest IH]; intros t [|i] H; simplify_eq/=.
  - by rewrite app_nil_r.
  - rewrite (IH _ _ H). by rewrite <-app_assoc.
Qed.

Lemma lookupTime_eq t meds i :
  ((t ++ [EvFirestoreList]) ++ readsOf (take i meds))%list = lookupTime t meds i.
Proof. unfold lookupTime. by rewrite <-app_assoc. Qed.

(** A fetch whose list call resolves: the whole run. *)
Lemma fetchMedicines_run js env s t meds :
  firestore_list env t = inr meds →
  fetchMedicines js env {| store := s; calls := t |} =
    (inr (),
     {| store := {| medicines := mergeAll js env (t ++ [EvFirestoreList])%list meds;
                    isInitialized := true;
                    error := error s;
                    loading := false |};
        calls := (t ++ EvFirestoreList :: readsOf meds)%list |}).
Proof.
  intros Hlist.
  unfold fetchMedicines, Store.fetchMedicines, Store.fetchAttempt, Store.setLoading,
    Store.getMedicinesFromFirestore, try_catch, bind, set_, liftIO, call; simpl.
  rewrite Hlist, mergeLoop_run; simpl.
  by rewrite <-app_assoc.
Qed.

(** What the loop body does to one record. *)
Lemma mergeRecord_on_chain js cd med :
  ChainData.exists_ cd = true →
  let r := Store.mergeRecord js (Some cd) med in
  r !! "ledgerStatus" = Some (VStr "On-Chain") ∧
  r !! "stock" = Some (VNum (ChainData.stock cd)) ∧
  r !! "price" = Some (VNum (ChainData.price cd)) ∧
  r !! "manufacturer" = Some (ChainData.manufacturer cd).
Proof. intros H. unfold Store.mergeRecord. rewrite H. by simplify_map_eq. Qed.

Lemma mergeRecord_pending js chainData med :
  Store.reportsExisting chainData = false →
  Store.mergeRecord js chainData med =
    <["stockStatus" := VStr (getStockStatus (JS.ToNumber js (JS.get med "stock")))]>
      (<["ledgerStatus" := VStr "Pending Confirmation"]> med).
Proof.
  unfold Store.mergeRecord, Store.reportsExisting, JS.get.
  destruct chainData as [cd|]; [intros ->|intros _]; by simplify_map_eq.
Qed.

Lemma mergeRecord_stockStatus js chainData med :
  let r := Store.mergeRecord js chainData med in
  r !! "stockStatus" = Some (VStr (getStockStatus (JS.ToNumber js (JS.get r "stock")))).
Proof.
  unfold Store.mergeRecord, JS.get.
  destruct chainData as [cd|]; [destruct (ChainData.exists_ cd)|]; by simplify_map_eq.
Qed.

Lemma mergeRecord_stock js chainData med :
  JS.get (Store.mergeRecord js chainData med) "stock" =
    match chainData with
    | Some cd => if ChainData.exists_ cd then VNum (ChainData.stock cd)
                 else JS.get med "stock"
    | None => JS.get med "stock"
    end.
Proof.
  unfold Store.mergeRecord, JS.get.
  destruct chainData as [cd|]; [destruct (ChainData.exists_ cd)|]; by simplify_map_eq.
Qed.

(** ** Fetch *)

(** C1: after a fetch whose list call resolved to [meds], the published
    list has one record per listed record, in order. For the record at
    position [i], with [chainData] the ledger's report for its batch
    number when its lookup was issued: if the ledger reports an existing
    record, then [ledgerStatus] is On-Chain and [stock], [price] and
    [manufacturer] hold the ledger's values; otherwise [ledgerStatus] is
    Pending Confirmation and every property other than the two derived
    ones, [ledgerStatus] and [stockStatus], is what the database
    returned. *)
Theorem fetch_merges_ledger js env s t meds i med :
  firestore_list env t = inr meds →
  meds !! i = Some med →
  let run := fetchMedicines js env {| store := s; calls := t |} in
  let chainData := ledgerAnswer js env (lookupTime t meds i) (JS.get med "batchNo") in
  run.1 = inr () ∧
  length (medicines (store run.2)) = length meds ∧
  ∃ r, medicines (store run.2) !! i = Some r ∧
    (Store.reportsExisting chainData = true →
       ∃ cd, chainData = Some cd ∧
         r !! "ledgerStatus" = Some (VStr "On-Chain") ∧
         r !! "stock" = Some (VNum (ChainData.stock cd)) ∧
         r !! "price" = Some (VNum (ChainData.price cd)) ∧
         r !! "manufacturer" = Some (ChainData.manufacturer cd)) ∧
    (Store.reportsExisting chainData = false →
       r !! "ledgerStatus" = Some (VStr "Pending Confirmation") ∧
       ∀ k, k ≠ "ledgerStatus" → k ≠ "stockStatus" → r !! k = med !! k).
Proof.
  intros Hlist Hi. simpl. rewrite (fetchMedicines_run _ _ _ _ _ Hlist); simpl.
  split; [done|]. split; [apply mergeAll_length|].
  eexists. split.
  { by rewrite (mergeAll_lookup _ _ _ _ _ _ Hi), lookupTime_eq. }
  split.
  - intros Hex.
    destruct (ledgerAnswer _ _ _ _) as [cd|]; [|done].
    exists cd. split; [done|]. by apply mergeRecord_on_chain.
  - intros Hex. rewrite (mergeRecord_pending _ _ _ Hex).
    split; [by simplify_map_eq|]. intros k ??. by simplify_map_eq.
Qed.

(** What the fetch classifies: after a fetch whose list call resolved,
    every published record's [stockStatus] is the classifier applied to
    that record's [stock] read through [Number], and that [stock] is the
    ledger's where the ledger reported an existing record and the listed
    record's own [stock] otherwise. The record's [quantity] is not
    read. *)
Lemma fetch_classifies_stock js env s t meds i med :
  firestore_list env t = inr meds →
  meds !! i = Some med →
  let run := fetchMedicines js env {| store := s; calls := t |} in
  let chainData := ledgerAnswer js env (lookupTime t meds i) (JS.get med "batchNo") in
  ∃ r, medicines (store run.2) !! i = Some r ∧
    r !! "stockStatus" = Some (VStr (getStockStatus (JS.ToNumber js (JS.get r "stock")))) ∧
    JS.get r "stock" =
      match chainData with
      | Some cd => if ChainData.exists_ cd then VNum (ChainData.stock cd)
                   else JS.get med "stock"
      | None => JS.get med "stock"
      end.
Proof.
  intros Hlist Hi. simpl. rewrite (fetchMedicines_run _ _ _ _ _ Hlist); simpl.
  eexists. split.
  { by rewrite (mergeAll_lookup _ _ _ _ _ _ Hi), lookupTime_eq. }
  split; [apply mergeRecord_stockStatus|apply mergeRecord_stock].
Qed.

(** C9: the read wrapper never rejects, and a ledger read that is
    rejected, or that resolves to no result, makes it resolve to [null]; and
    in a fetch whose list call resolved, such a read for the record at
    position [i] leaves the fetch successful with the store's error
    untouched, and the record Pending Confirmation, equal to what any
    report with [exists = false] would have produced. *)
Theorem fetch_survives_failed_read js env s t meds i med :
  firestore_list env t = inr meds →
  meds !! i = Some med →
  failedRead env (lookupTime t meds i) (JS.get med "batchNo") = true →
  let run := fetchMedicines js env {| store := s; calls := t |} in
  (∀ t' batch, resolves (Service.getMedicineOnChain js env batch t').1 = true) ∧
  (Service.getMedicineOnChain js env (JS.get med "batchNo") (lookupTime t meds i)).1
    = inr None ∧
  run.1 = inr () ∧
  error (store run.2) = error s ∧
  isInitialized (store run.2) = true ∧
  loading (store run.2) = false ∧
  length (medicines (store run.2)) = length meds ∧
  ∃ r, medicines (store run.2) !! i = Some r ∧
    r !! "ledgerStatus" = Some (VStr "Pending Confirmation") ∧
    ∀ cd, ChainData.exists_ cd = false → r = Store.mergeRecord js (Some cd) med.
Proof.
  intros Hlist Hi Hfail. simpl.
  pose proof (ledgerAnswer_failedRead js _ _ _ Hfail) as Hans.
  rewrite getMedicineOnChain_run, Hans.
  rewrite (fetchMedicines_run _ _ _ _ _ Hlist); simpl.
  split; [intros t' batch; by rewrite getMedicineOnChain_run|].
  split_and!; try done; [apply mergeAll_length|].
  eexists. split.
  { by rewrite (mergeAll_lookup _ _ _ _ _ _ Hi), lookupTime_eq, Hans. }
  rewrite mergeRecord_pending by done. split; [by simplify_map_eq|].
  intros cd Hcd. by rewrite mergeRecord_pending by done.
Qed.

(** The loop is rejected exactly when a lookup is, whatever was merged
    before; when none is, it pushes one record per listed record. *)
Lemma mergeLoop_lookupRejected js lookup meds merged t :
  match Store.mergeLoop js lookup meds merged t with
  | (inl _, _) => lookupRejected lookup meds t = true
  | (inr out, _) =>
      lookupRejected lookup meds t = false ∧
      length out = (length merged + length meds)%nat
  end.
Proof.
  revert merged t. induction meds as [|med rest IH]; intros merged t; simpl.
  - split; [done|lia].
  - unfold bind at 1.
    destruct (lookup (JS.get med "batchNo") t) as [[e|chainData] t1]; [done|].
    specialize (IH (merged ++ [Store.mergeRecord js chainData med])%list t1).
    destruct (Store.mergeLoop js lookup rest _ t1) as [[e|out] t2]; [done|].
    destruct IH as [-> Hlen]. split; [done|].
    rewrite Hlen, length_app. simpl. lia.
Qed.

(** C4: if a step of the fetch fails, the list call or, for any lookup
    function the store is linked with, the lookup for any one of the
    listed records, however many records were merged before it, then the
    fetch ends with the loading flag false, the error message set, and
    the record list (and the initialisation flag) as they were before
    the fetch started. *)
Theorem fetch_failure_aborts js env lookup s t :
  fetchFails env lookup t = true →
  let run := Store.fetchMedicines js env lookup {| store := s; calls := t |} in
  run.1 = inr () ∧
  loading (store run.2) = false ∧
  error (store run.2) = Some "Failed to fetch medicines" ∧
  medicines (store run.2) = medicines s ∧
  isInitialized (store run.2) = isInitialized s.
Proof.
  unfold fetchFails, Store.fetchMedicines, Store.fetchAttempt, Store.setLoading,
    Store.getMedicinesFromFirestore, try_catch, bind, set_, liftIO, call; simpl.
  destruct (firestore_list env t) as [e|meds]; [done|].
  intros Hrej.
  pose proof (mergeLoop_lookupRejected js lookup meds []
                (t ++ [EvFirestoreList])%list) as Hloop.
  destruct (Store.mergeLoop js lookup meds [] _) as [[e|out] t']; [done|].
  destruct Hloop as [Hnone _]. congruence.
Qed.

(** ** Add *)

Lemma addMedicineOnChain_run js env payload t :
  Service.addMedicineOnChain js env (Store.writeArgs js payload) t =
    if window_ethereum env
    then (contract_addMedicine env t (Store.writeArgs js payload),
          (t ++ [EvContractWrite (Store.writeArgs js payload)])%list)
    else (inl (Error "MetaMask not installed!"), t).
Proof.
  unfold Service.addMedicineOnChain, try_catch, throw, call.
  destruct (window_ethereum env); simpl; [|done].
  by destruct (contract_addMedicine _ _ _).
Qed.

(** C5: after [addMedicine] the loading flag is false, whatever happened;
    and if the ledger write it starts with fails, it returns [null], the
    record list is unchanged, and the only call made, if any, is the
    ledger write itself: the database is not asked to create anything. *)
Theorem addMedicine_ledger_write_failure js env payload s t :
  let run := addMedicine js env payload {| store := s; calls := t |} in
  loading (store run.2) = false ∧
  (ledgerWriteFails js env t payload →
     run.1 = inr None ∧
     medicines (store run.2) = medicines s ∧
     (calls run.2 = t ∨
      calls run.2 = (t ++ [EvContractWrite (Store.writeArgs js payload)])%list) ∧
     ∀ suffix fields, calls run.2 = (t ++ suffix)%list → EvFirestoreAdd fields ∉ suffix).
Proof.
  unfold addMedicine, Store.addMedicine, Store.setLoading, Store.setMedicines,
    Store.addMedicineToFirestore, try_finally, try_catch, bind, set_, liftIO, ret;
    simpl.
  rewrite addMedicineOnChain_run.
  destruct (window_ethereum env) eqn:Hw; simpl.
  - destruct (contract_addMedicine env t _) as [e|txHash] eqn:Hc; simpl.
    + split; [done|]. intros _. split_and!; [done|done|by right|].
      intros suffix fields Heq%app_inv_head. subst suffix.
      rewrite list_elem_of_singleton. done.
    + rewrite getMedicineOnChain_run; simpl. unfold call.
      destruct (firestore_add env _ _) as [e|newMed]; simpl.
      * split; [done|]. intros [?|[e' ?]]; congruence.
      * split; [done|]. intros [?|[e' ?]]; congruence.
  - split; [done|]. intros _. split_and!; [done|done|by left|].
    intros suffix fields Heq. rewrite <-(app_nil_r t) in Heq at 1.
    apply app_inv_head in Heq. subst suffix. apply not_elem_of_nil.
Qed.

(** What the store makes of the read wrapper's report is what the
    contract answered. *)
Lemma reportsExisting_ledgerConfirms js env t batch :
  Store.reportsExisting (ledgerAnswer js env t batch) = ledgerConfirms env t batch.
Proof.
  unfold ledgerConfirms, ledgerAnswer, Service.getMedicineOnChain, try_catch, bind,
    call.
  destruct (contract_getMedicine env t batch) as [e|data]; [done|].
  by destruct data.
Qed.

(** C6: when the ledger write, and then the database create, succeed,
    [addMedicine] returns the record the create call resolved to and puts
    it at the front of the record list. The create call is made with the
    payload extended by [txHash], the transaction identifier of the
    write; by [ledgerStatus], On-Chain when the contract, asked again for
    the batch number after the write, answers with an existing record and
    Pending Confirmation otherwise; and by [onChain], true iff that
    status is On-Chain. *)
Theorem addMedicine_success js env payload s t txHash newMed :
  let args := Store.writeArgs js payload in
  let batch := JS.get payload "batchNo" in
  let onChain := ledgerConfirms env (t ++ [EvContractWrite args])%list batch in
  let ledgerStatus := if onChain then "On-Chain" else "Pending Confirmation" in
  let fields : obj :=
    <["onChain" := VBool onChain]>
      (<["ledgerStatus" := VStr ledgerStatus]> (<["txHash" := txHash]> payload)) in
  let run := addMedicine js env payload {| store := s; calls := t |} in
  window_ethereum env = true →
  contract_addMedicine env t args = inr txHash →
  firestore_add env (t ++ [EvContractWrite args; EvContractRead batch])%list fields
    = inr newMed →
  run.1 = inr (Some newMed) ∧
  medicines (store run.2) = newMed :: medicines s ∧
  loading (store run.2) = false ∧
  calls run.2 =
    (t ++ [EvContractWrite args; EvContractRead batch; EvFirestoreAdd fields])%list ∧
  fields !! "txHash" = Some txHash ∧
  fields !! "ledgerStatus" = Some (VStr ledgerStatus) ∧
  fields !! "onChain" = Some (VBool onChain) ∧
  (ledgerStatus = "On-Chain" ↔ onChain = true) ∧
  (ledgerStatus = "Pending Confirmation" ↔ onChain = false) ∧
  (onChain = true ↔
     ∃ o, contract_getMedicine env (t ++ [EvContractWrite args])%list batch
            = inr (VObj o) ∧
          JS.ToBoolean (JS.get o "exists") = true) ∧
  ∀ k, k ≠ "txHash" → k ≠ "ledgerStatus" → k ≠ "onChain" → fields !! k = payload !! k.
Proof.
  intros args batch onChain ledgerStatus fields run Hw Hc Hadd.
  assert (Store.newMedicineFields payload txHash
            (Store.resolveLedgerStatus
               (ledgerAnswer js env (t ++ [EvContractWrite args])%list batch))
          = fields) as Hfields.
  { unfold Store.newMedicineFields, Store.resolveLedgerStatus, fields, ledgerStatus.
    rewrite reportsExisting_ledgerConfirms. fold onChain. by destruct onChain. }
  assert (run = (inr (Some newMed),
                 {| store := {| medicines := newMed :: medicines s;
                                isInitialized := isInitialized s;
                                error := error s;
                                loading := false |};
                    calls := (t ++ [EvContractWrite args; EvContractRead batch;
                                    EvFirestoreAdd fields])%list |})) as ->.
  { unfold run, addMedicine, Store.addMedicine, Store.setLoading, Store.setMedicines,
      Store.addMedicineToFirestore, try_finally, try_catch, bind, set_, liftIO, ret;
      simpl.
    rewrite addMedicineOnChain_run, Hw; simpl. fold args. rewrite Hc; simpl.
    rewrite getMedicineOnChain_run; simpl. unfold call. fold batch.
    rewrite Hfields.
    replace ((t ++ [EvContractWrite args]) ++ [EvContractRead batch])%list
      with (t ++ [EvContractWrite args; EvContractRead batch])%list
      by (by rewrite <-app_assoc).
    rewrite Hadd; simpl. rewrite <-app_assoc. reflexivity. }
  simpl. split_and!; [done|done|done|done|..].
  - unfold fields. by simplify_map_eq.
  - unfold fields. by simplify_map_eq.
  - unfold fields. by simplify_map_eq.
  - unfold ledgerStatus. by destruct onChain.
  - unfold ledgerStatus. by destruct onChain.
  - unfold onChain, ledgerConfirms.
    destruct (contract_getMedicine env _ batch) as [e|data].
    + split; [done|]. by intros (o & ? & _).
    + destruct data; try (split; [done|]; by intros (o & ? & _)).
      split; [intros H; by eexists|]. by intros (o & [= <-] & H).
  - intros k ???. unfold fields. by simplify_map_eq.
Qed.

(** ** Update *)

Lemma updateMap_run id updatedData ms acc :
  Store.updateMap id updatedData ms acc =
    ((λ m, if Store.hasId id m then Store.mergeFields m updatedData else m) <$> ms,
     match last (updatedRecords id updatedData ms) with
     | Some r => Some r
     | None => acc
     end).
Proof.
  revert acc. unfold updatedRecords.
  induction ms as [|m rest IH]; intros acc; simpl; [done|].
  destruct (Store.hasId id m) eqn:Hm.
  - rewrite IH. rewrite filter_cons_True by (rewrite Hm; exact I).
    rewrite fmap_cons, last_cons. by destruct (last _).
  - rewrite IH. rewrite filter_cons_False by (rewrite Hm; intros []). done.
Qed.

Lemma updatedRecords_none id updatedData ms :
  noneHasId id ms → updatedRecords id updatedData ms = [].
Proof.
  unfold updatedRecords. induction 1 as [|m rest Hm _ IH]; [done|].
  rewrite filter_cons_False by (rewrite Hm; intros []). done.
Qed.

Lemma updatedRecords_last id updatedData pre m post :
  Store.hasId id m = true → noneHasId id post →
  last (updatedRecords id updatedData (pre ++ m :: post)) =
    Some (Store.mergeFields m updatedData).
Proof.
  intros Hm Hpost. unfold updatedRecords.
  rewrite filter_app. rewrite filter_cons_True by (rewrite Hm; exact I).
  rewrite fmap_app, fmap_cons.
  change ((λ m0, Store.mergeFields m0 updatedData) <$>
            filter (λ m0, Is_true (Store.hasId id m0)) post)
    with (updatedRecords id updatedData post).
  rewrite (updatedRecords_none _ _ _ Hpost). apply last_snoc.
Qed.

Lemma map_id_noneHasId id (f : obj → obj) ms :
  noneHasId id ms → (λ m, if Store.hasId id m then f m else m) <$> ms = ms.
Proof. induction 1 as [|m rest Hm _ IH]; [done|]. rewrite fmap_cons, Hm. by f_equal. Qed.

(** The whole run of [updateMedicine]. *)
Lemma updateMedicine_run env id payload s t :
  updateMedicine env id payload {| store := s; calls := t |} =
    match firestore_update env t id payload with
    | inl _ =>
        (inr None,
         {| store := {| medicines := medicines s; isInitialized := isInitialized s;
                        error := error s; loading := false |};
            calls := (t ++ [EvFirestoreUpdate id payload])%list |})
    | inr updatedData =>
        (inr (last (updatedRecords id updatedData (medicines s))),
         {| store := {| medicines :=
                          (λ m, if Store.hasId id m
                                then Store.mergeFields m updatedData else m)
                            <$> medicines s;
                        isInitialized := isInitialized s;
                        error := error s; loading := false |};
            calls := (t ++ [EvFirestoreUpdate id payload])%list |})
    end.
Proof.
  unfold updateMedicine, Store.updateMedicine, Store.setLoading, Store.setMedicines,
    Store.updateMedicineInFirestore, try_finally, try_catch, bind, set_, liftIO, ret,
    call; simpl.
  destruct (firestore_update env t id payload) as [e|updatedData]; simpl; [done|].
  rewrite updateMap_run; simpl. by destruct (last _).
Qed.

(** C8: [updateMedicine] ends with the loading flag false. If the
    database update is rejected it returns [null] and the record list is
    unchanged. If it resolves to [updatedData], every record with another
    identifier is unchanged, every record with the identifier [id] has
    the properties of [updatedData] and keeps each property
    [updatedData] does not have, and the record returned is the updated
    record: the merge of the last record with that identifier. *)
Theorem updateMedicine_merges_response env id payload s t :
  let run := updateMedicine env id payload {| store := s; calls := t |} in
  loading (store run.2) = false ∧
  match firestore_update env t id payload with
  | inl _ => run.1 = inr None ∧ medicines (store run.2) = medicines s
  | inr updatedData =>
      length (medicines (store run.2)) = length (medicines s) ∧
      (∀ i m, medicines s !! i = Some m → Store.hasId id m = false →
         medicines (store run.2) !! i = Some m) ∧
      (∀ i m, medicines s !! i = Some m → Store.hasId id m = true →
         ∃ m', medicines (store run.2) !! i = Some m' ∧
           m' = Store.mergeFields m updatedData ∧
           (∀ k, updatedData !! k = None → m' !! k = m !! k) ∧
           (∀ k v, updatedData !! k = Some v → m' !! k = Some v)) ∧
      (∀ pre m post, medicines s = (pre ++ m :: post)%list →
         Store.hasId id m = true → noneHasId id post →
         run.1 = inr (Some (Store.mergeFields m updatedData)))
  end.
Proof.
  simpl. rewrite updateMedicine_run.
  destruct (firestore_update env t id payload) as [e|updatedData]; simpl; [done|].
  split_and!; [done|by rewrite length_fmap|..].
  - intros i m Hi Hm. by rewrite list_lookup_fmap, Hi; simpl; rewrite Hm.
  - intros i m Hi Hm. eexists. split_and!; [|done|..].
    + by rewrite list_lookup_fmap, Hi; simpl; rewrite Hm.
    + intros k Hk. by apply lookup_union_r.
    + intros k v Hk. by apply lookup_union_Some_l.
  - intros pre m post -> Hm Hpost. by rewrite updatedRecords_last.
Qed.

(** ** Approve *)

Lemma approveMap_none env id ms acc t :
  noneHasId id ms → Store.approveMap env id ms acc t = (inr (ms, acc), t).
Proof.
  induction 1 as [|m rest Hm _ IH]; simpl; [done|].
  rewrite Hm. unfold bind. by rewrite IH.
Qed.

Lemma approveMap_unique env id pre m post acc t prior :
  noneHasId id pre → Store.hasId id m = true → noneHasId id post →
  priorHistory m = inr prior →
  Store.approveMap env id (pre ++ m :: post) acc t =
    (inr ((pre ++ Store.approvedRecord m prior (clock env t) :: post)%list,
          Some (Store.approvedRecord m prior (clock env t))),
     (t ++ [EvClock])%list).
Proof.
  intros Hpre Hm Hpost Hprior.
  induction Hpre as [|x pre Hx _ IH]; simpl.
  - rewrite Hm. unfold bind, settle, Store.now, call.
    unfold priorHistory in Hprior. rewrite Hprior.
    by rewrite approveMap_none.
  - rewrite Hx. unfold bind. by rewrite IH.
Qed.

(** The run of [approveMedicine] when the database update is rejected. *)
Lemma approveMedicine_rejected env id s t e :
  firestore_update env t id approvalPayload = inl e →
  approveMedicine env id {| store := s; calls := t |} =
    (inr None,
     {| store := {| medicines := medicines s; isInitialized := isInitialized s;
                    error := error s; loading := false |};
        calls := (t ++ [EvFirestoreUpdate id approvalPayload])%list |}).
Proof.
  intros Hupd.
  unfold approveMedicine, Store.approveMedicine, Store.setLoading, Store.setMedicines,
    Store.updateMedicineInFirestore, try_finally, try_catch, bind, set_, liftIO, ret,
    call; simpl.
  fold approvalPayload. by rewrite Hupd.
Qed.

(** The run of [approveMedicine] when the update resolves and no record
    has the identifier. *)
Lemma approveMedicine_none env id s t updatedData :
  firestore_update env t id approvalPayload = inr updatedData →
  noneHasId id (medicines s) →
  approveMedicine env id {| store := s; calls := t |} =
    (inr None,
     {| store := {| medicines := medicines s; isInitialized := isInitialized s;
                    error := error s; loading := false |};
        calls := (t ++ [EvFirestoreUpdate id approvalPayload])%list |}).
Proof.
  intros Hupd Hnone.
  unfold approveMedicine, Store.approveMedicine, Store.setLoading, Store.setMedicines,
    Store.updateMedicineInFirestore, try_finally, try_catch, bind, set_, liftIO, ret,
    call; simpl.
  fold approvalPayload. rewrite Hupd; simpl. by rewrite approveMap_none.
Qed.

(** The run of [approveMedicine] when the update resolves and exactly
    one record has the identifier. *)
Lemma approveMedicine_unique env id s t updatedData pre m post prior :
  firestore_update env t id approvalPayload = inr updatedData →
  medicines s = (pre ++ m :: post)%list →
  noneHasId id pre → Store.hasId id m = true → noneHasId id post →
  priorHistory m = inr prior →
  let t1 := (t ++ [EvFirestoreUpdate id approvalPayload])%list in
  let approved := Store.approvedRecord m prior (clock env t1) in
  approveMedicine env id {| store := s; calls := t |} =
    (inr (Some approved),
     {| store := {| medicines := (pre ++ approved :: post)%list;
                    isInitialized := isInitialized s;
                    error := error s; loading := false |};
        calls := (t1 ++ [EvClock])%list |}).
Proof.
  intros Hupd Hms Hpre Hm Hpost Hprior.
  unfold approveMedicine, Store.approveMedicine, Store.setLoading, Store.setMedicines,
    Store.updateMedicineInFirestore, try_finally, try_catch, bind, set_, liftIO, ret,
    call; simpl.
  fold approvalPayload. rewrite Hupd; simpl.
  by rewrite Hms, (approveMap_unique _ _ _ _ _ _ _ prior).
Qed.

Lemma hasId_approvedRecord id m prior timestamp :
  Store.hasId id (Store.approvedRecord m prior timestamp) = Store.hasId id m.
Proof. unfold Store.hasId, Store.approvedRecord. by simplify_map_eq. Qed.

Lemma priorHistory_approvedRecord m prior timestamp :
  priorHistory (Store.approvedRecord m prior timestamp) =
    inr (prior ++ [Store.approvalEntry timestamp])%list.
Proof. unfold priorHistory, Store.approvedRecord, JS.get. by simplify_map_eq. Qed.

Lemma priorHistory_array m entries :
  m !! "history" = Some (VArr entries) → priorHistory m = inr entries.
Proof. unfold priorHistory, JS.get. by intros ->. Qed.

Lemma priorHistory_absent m :
  m !! "history" = None → priorHistory m = inr [].
Proof. unfold priorHistory, JS.get. by intros ->. Qed.

(** C7, amended: when the database update resolves and [m] is the record
    with the identifier [id], [approveMedicine] returns the record that
    replaces [m] in the list. Its [listingStatus] is Approved, its
    [history] is the prior entries of [m] followed by exactly one new
    entry, the object
    [{ action: "APPROVED", timestamp: <current time>, changes: "Approved by Admin" }]
    (the text is under the property [changes]; the entry has no other
    property), and every other property is that of [m]. Approving again
    appends a second such entry after the first. *)
Theorem approveMedicine_appends_entry env id s t updatedData pre m post prior :
  firestore_update env t id approvalPayload = inr updatedData →
  medicines s = (pre ++ m :: post)%list →
  noneHasId id pre → Store.hasId id m = true → noneHasId id post →
  priorHistory m = inr prior →
  let t1 := (t ++ [EvFirestoreUpdate id approvalPayload])%list in
  let entry1 := Store.approvalEntry (clock env t1) in
  let run1 := approveMedicine env id {| store := s; calls := t |} in
  ∃ approved,
    run1.1 = inr (Some approved) ∧
    medicines (store run1.2) = (pre ++ approved :: post)%list ∧
    loading (store run1.2) = false ∧
    approved !! "listingStatus" = Some (VStr "Approved") ∧
    approved !! "history" = Some (VArr (prior ++ [entry1])%list) ∧
    (∀ k, k ≠ "listingStatus" → k ≠ "history" → approved !! k = m !! k) ∧
    (∃ e, entry1 = VObj e ∧
       e !! "action" = Some (VStr "APPROVED") ∧
       e !! "timestamp" = Some (VStr (clock env t1)) ∧
       e !! "changes" = Some (VStr "Approved by Admin") ∧
       ∀ k, k ≠ "action" → k ≠ "timestamp" → k ≠ "changes" → e !! k = None) ∧
    ∀ updatedData2,
      firestore_update env (calls run1.2) id approvalPayload = inr updatedData2 →
      let t2 := (calls run1.2 ++ [EvFirestoreUpdate id approvalPayload])%list in
      let entry2 := Store.approvalEntry (clock env t2) in
      let run2 := approveMedicine env id run1.2 in
      ∃ approved2,
        run2.1 = inr (Some approved2) ∧
        medicines (store run2.2) = (pre ++ approved2 :: post)%list ∧
        approved2 !! "history" = Some (VArr (prior ++ [entry1; entry2])%list).
Proof.
  intros Hupd Hms Hpre Hm Hpost Hprior t1 entry1 run1.
  unfold run1.
  rewrite (approveMedicine_unique _ _ _ _ _ _ _ _ _ Hupd Hms Hpre Hm Hpost Hprior).
  fold t1. simpl. eexists. split_and!; try done.
  - unfold Store.approvedRecord. by simplify_map_eq.
  - unfold Store.approvedRecord. by simplify_map_eq.
  - intros k ??. unfold Store.approvedRecord. by simplify_map_eq.
  - eexists. split; [reflexivity|]. split_and!; try by simplify_map_eq.
    intros k ???. by simplify_map_eq.
  - intros updatedData2 Hupd2.
    erewrite (approveMedicine_unique _ _ _ _ _ pre _ post);
      [|exact Hupd2|reflexivity|done|by rewrite hasId_approvedRecord|done
       |apply priorHistory_approvedRecord].
    simpl. eexists. split_and!; try done.
    unfold Store.approvedRecord at 1. simplify_map_eq. by rewrite <-app_assoc.
Qed.

(** ** No record with the identifier *)

(** C10: when no record of the list has the identifier, [updateMedicine]
    and [approveMedicine] return [null] although the database update
    resolves: the update call is made, the record list is unchanged, and
    the run, the value returned and the world left behind, is that of a
    run in which the update is rejected. *)
Theorem no_match_returns_null env env' id payload s t :
  noneHasId id (medicines s) →
  resolves (firestore_update env t id payload) = true →
  resolves (firestore_update env t id approvalPayload) = true →
  resolves (firestore_update env' t id payload) = false →
  resolves (firestore_update env' t id approvalPayload) = false →
  let w := {| store := s; calls := t |} in
  let upd := updateMedicine env id payload w in
  let upd' := updateMedicine env' id payload w in
  let app := approveMedicine env id w in
  let app' := approveMedicine env' id w in
  (upd.1 = inr None ∧
   calls upd.2 = (t ++ [EvFirestoreUpdate id payload])%list ∧
   medicines (store upd.2) = medicines s ∧
   upd' = upd) ∧
  (app.1 = inr None ∧
   calls app.2 = (t ++ [EvFirestoreUpdate id approvalPayload])%list ∧
   medicines (store app.2) = medicines s ∧
   app' = app).
Proof.
  intros Hnone Hu Ha Hu' Ha'. simpl.
  rewrite !updateMedicine_run.
  destruct (firestore_update env t id payload) as [|d] eqn:E1; [done|].
  destruct (firestore_update env' t id payload) as [e|] eqn:E2; [|done].
  destruct (firestore_update env t id approvalPayload) as [|d'] eqn:E3; [done|].
  destruct (firestore_update env' t id approvalPayload) as [e'|] eqn:E4; [|done].
  rewrite (approveMedicine_none _ _ _ _ _ E3 Hnone).
  rewrite (approveMedicine_rejected _ _ _ _ _ E4).
  simpl. rewrite updatedRecords_none by done.
  rewrite map_id_noneHasId by done. done.
Qed.

(* ===================================================================== *)
(** * Runs on the small world *)
(* ===================================================================== *)

(** The classifier at the two sides of the boundary and at what
    [Number(undefined)] gives. *)
Example getStockStatus_examples :
  getStockStatus Num.zero = "Out of Stock" ∧
  getStockStatus Num.five = "Low Stock" ∧
  getStockStatus Num.thirty = "Low Stock" ∧
  getStockStatus Num.fifty = "Low Stock" ∧
  getStockStatus Num.fifty_one = "In Stock" ∧
  getStockStatus (JS.ToNumber Demo.js VUndefined) = "In Stock".
Proof. by split_and!. Qed.

(** The published records of the fetch on the small world. *)
Example fetch_demo_records :
  let run := fetchMedicines Demo.js Demo.env Demo.start in
  run.1 = inr () ∧
  medicines (store run.2) =
    [ <["stockStatus" := VStr "In Stock"]>
        (<["ledgerStatus" := VStr "Pending Confirmation"]> Demo.medB1);
      <["stockStatus" := VStr "Low Stock"]>
        (<["manufacturer" := VStr "Acme"]>
           (<["price" := VNum Num.ten]>
              (<["stock" := VNum Num.five]>
                 (<["ledgerStatus" := VStr "On-Chain"]> Demo.medB2)))) ] ∧
  calls run.2 =
    [EvFirestoreList; EvContractRead (VStr "B1"); EvContractRead (VStr "B2")].
Proof. by vm_compute. Qed.

(** On the small world the second listed record comes out On-Chain. *)
Lemma fetch_merges_ledger_witness :
  ∃ r, medicines (store (fetchMedicines Demo.js Demo.env Demo.start).2) !! 1%nat = Some r ∧
    r !! "ledgerStatus" = Some (VStr "On-Chain").
Proof.
  destruct (fetch_merges_ledger Demo.js Demo.env initialState []
              [Demo.medB1; Demo.medB2] 1 Demo.medB2 eq_refl eq_refl)
    as (_ & _ & r & Hr & Hon & _).
  exists r. split; [exact Hr|].
  destruct (Hon eq_refl) as (cd & _ & Hstatus & _). exact Hstatus.
Defined.

(** The same, on the record [m2] of the small world. *)
Example fetch_classifies_stock_demo :
  ∃ r, medicines (store (fetchMedicines Demo.js Demo.env Demo.start).2) !! 1%nat = Some r ∧
    r !! "stockStatus" =
      Some (VStr (getStockStatus (JS.ToNumber Demo.js (JS.get r "stock")))) ∧
    JS.get r "stock" = VNum Num.five.
Proof.
  exact (fetch_classifies_stock Demo.js Demo.env initialState []
           [Demo.medB1; Demo.medB2] 1 Demo.medB2 eq_refl eq_refl).
Qed.

(** C2, at the failing input: the database lists the record [m1], whose
    quantity 30 is under [quantity] as [addMedicine] and the stock page
    have it, and the ledger has no entry for its batch. The fetch
    publishes it with [stockStatus] In Stock, because it classifies
    [Number(med.stock)] and the record has no [stock]; the classifier
    applied to the record's quantity gives Low Stock, which is also what
    the stock page shows for it. *)
Theorem fetch_classifies_stock_not_quantity :
  let run := fetchMedicines Demo.js Demo.env Demo.start in
  ∃ r, medicines (store run.2) !! 0%nat = Some r ∧
    r !! "quantity" = Some (VNum Num.thirty) ∧
    r !! "stock" = None ∧
    r !! "ledgerStatus" = Some (VStr "Pending Confirmation") ∧
    r !! "stockStatus" = Some (VStr "In Stock") ∧
    getStockStatus (JS.ToNumber Demo.js (JS.get r "quantity")) = "Low Stock" ∧
    getUIStockStatus (JS.ToNumber Demo.js (JS.or (JS.get r "quantity") (VNum Num.zero)))
      = "Low Stock".
Proof. eexists. split_and!; reflexivity. Qed.

(** On the small world the read for the first record is rejected; the
    record comes out Pending Confirmation and no error is stored. *)
Lemma fetch_survives_failed_read_witness :
  ∃ r, medicines (store (fetchMedicines Demo.js Demo.env Demo.start).2) !! 0%nat = Some r ∧
    r !! "ledgerStatus" = Some (VStr "Pending Confirmation") ∧
    error (store (fetchMedicines Demo.js Demo.env Demo.start).2) = None.
Proof.
  destruct (fetch_survives_failed_read Demo.js Demo.env initialState []
              [Demo.medB1; Demo.medB2] 0 Demo.medB1 eq_refl eq_refl eq_refl)
    as (_ & _ & _ & Herr & _ & _ & _ & r & Hr & Hstatus & _).
  exists r. split; [exact Hr|]. split; [exact Hstatus|exact Herr].
Defined.

(** A fetch with the database down, a fetch linked with a lookup that is
    rejected for every record, and a fetch linked with a lookup that
    resolves for the first record and is rejected for the second: each
    leaves the two loaded records in place and stores the error. *)
Lemma fetch_failure_aborts_witness :
  (let run := Store.fetchMedicines Demo.js Demo.offline
                (Service.getMedicineOnChain Demo.js Demo.offline) Demo.started in
   medicines (store run.2) = [Demo.medB1; Demo.medB2] ∧
   error (store run.2) = Some "Failed to fetch medicines") ∧
  (let run := Store.fetchMedicines Demo.js Demo.env Demo.rejectingLookup Demo.started in
   medicines (store run.2) = [Demo.medB1; Demo.medB2] ∧
   error (store run.2) = Some "Failed to fetch medicines") ∧
  (let run := Store.fetchMedicines Demo.js Demo.env Scenario.rejectingB2
                {| store := initialState; calls := [] |} in
   Scenario.rejectingB2 (VStr "B1") [EvFirestoreList] =
     (inr None, [EvFirestoreList; EvContractRead (VStr "B1")]) ∧
   medicines (store run.2) = [] ∧
   isInitialized (store run.2) = false ∧
   error (store run.2) = Some "Failed to fetch medicines").
Proof.
  split_and!.
  - destruct (fetch_failure_aborts Demo.js Demo.offline
                (Service.getMedicineOnChain Demo.js Demo.offline) Demo.loaded []
                eq_refl)
      as (_ & _ & Herr & Hms & _).
    split; [exact Hms|exact Herr].
  - destruct (fetch_failure_aborts Demo.js Demo.env Demo.rejectingLookup
                Demo.loaded [] eq_refl)
      as (_ & _ & Herr & Hms & _).
    split; [exact Hms|exact Herr].
  - destruct (fetch_failure_aborts Demo.js Demo.env Scenario.rejectingB2
                initialState [] eq_refl)
      as (_ & _ & Herr & Hms & Hinit).
    split; [reflexivity|]. split; [exact Hms|]. split; [exact Hinit|exact Herr].
Defined.

(** Adding without a wallet. *)
Lemma addMedicine_ledger_write_failure_witness :
  let run := addMedicine Demo.js Demo.offline Demo.payloadB2 Demo.started in
  loading (store run.2) = false ∧ run.1 = inr None ∧
  medicines (store run.2) = [Demo.medB1; Demo.medB2].
Proof.
  destruct (addMedicine_ledger_write_failure Demo.js Demo.offline Demo.payloadB2
              Demo.loaded [])
    as (Hloading & Hfail).
  destruct (Hfail (or_introl eq_refl)) as (Hnull & Hms & _).
  split; [exact Hloading|]. split; [exact Hnull|exact Hms].
Defined.

(** Adding on the small world. For the batch the contract knows, the
    record is created On-Chain and leads the list; for the batch whose
    read is rejected, it is created Pending Confirmation. *)
Lemma addMedicine_success_witness :
  (let run := addMedicine Demo.js Demo.env Demo.payloadB2 Demo.started in
   run.1 =
     inr (Some (<["id" := VStr "m3"]>
                  (<["onChain" := VBool true]>
                     (<["ledgerStatus" := VStr "On-Chain"]>
                        (<["txHash" := VStr "0xabc"]> Demo.payloadB2))))) ∧
   length (medicines (store run.2)) = 3%nat) ∧
  (let run := addMedicine Demo.js Demo.env Scenario.payloadB1 Demo.started in
   run.1 =
     inr (Some (<["id" := VStr "m3"]>
                  (<["onChain" := VBool false]>
                     (<["ledgerStatus" := VStr "Pending Confirmation"]>
                        (<["txHash" := VStr "0xabc"]> Scenario.payloadB1)))))).
Proof.
  split.
  - destruct (addMedicine_success Demo.js Demo.env Demo.payloadB2 Demo.loaded []
                (VStr "0xabc")
                (<["id" := VStr "m3"]>
                   (<["onChain" := VBool true]>
                      (<["ledgerStatus" := VStr "On-Chain"]>
                         (<["txHash" := VStr "0xabc"]> Demo.payloadB2))))
                eq_refl eq_refl eq_refl)
      as (Hret & Hms & _).
    split; [exact Hret|]. exact (f_equal length Hms).
  - destruct (addMedicine_success Demo.js Demo.env Scenario.payloadB1 Demo.loaded []
                (VStr "0xabc")
                (<["id" := VStr "m3"]>
                   (<["onChain" := VBool false]>
                      (<["ledgerStatus" := VStr "Pending Confirmation"]>
                         (<["txHash" := VStr "0xabc"]> Scenario.payloadB1))))
                eq_refl eq_refl eq_refl)
      as (Hret & _).
    exact Hret.
Defined.

(** The fields of the create call of that run. *)
Example addMedicine_demo_fields :
  (addMedicine Demo.js Demo.env Demo.payloadB2 Demo.started).1 =
    inr (Some (<["id" := VStr "m3"]>
                 (<["onChain" := VBool true]>
                    (<["ledgerStatus" := VStr "On-Chain"]>
                       (<["txHash" := VStr "0xabc"]> Demo.payloadB2))))).
Proof. by vm_compute. Qed.

(** C7, counterexample: after approving the record [m1], which has no
    history, the one entry of its history has no property [description];
    the text "Approved by Admin" is under [changes]. *)
Lemma approveMedicine_entry_without_description :
  ∃ approved e,
    (approveMedicine Demo.env "m1" Demo.started).1 = inr (Some approved) ∧
    approved !! "history" = Some (VArr [VObj e]) ∧
    e !! "description" = None ∧
    JS.getProp (VObj e) "description" = inr VUndefined ∧
    e !! "changes" = Some (VStr "Approved by Admin").
Proof. do 2 eexists. split_and!; reflexivity. Qed.

(** Approving the record [m1] twice: two entries, in order. *)
Lemma approveMedicine_appends_entry_witness :
  let run1 := approveMedicine Demo.env "m1" Demo.started in
  let run2 := approveMedicine Demo.env "m1" run1.2 in
  ∃ approved2, run2.1 = inr (Some approved2) ∧
    approved2 !! "history" =
      Some (VArr [Store.approvalEntry "2024-01-01T00:00:00.000Z";
                  Store.approvalEntry "2024-01-02T00:00:00.000Z"]).
Proof.
  destruct (approveMedicine_appends_entry Demo.env "m1" Demo.loaded [] approvalPayload
              [] Demo.medB1 [Demo.medB2] [] eq_refl eq_refl
              ltac:(repeat constructor) eq_refl ltac:(repeat constructor) eq_refl)
    as (approved & _ & _ & _ & _ & _ & _ & _ & Htwice).
  destruct (Htwice approvalPayload eq_refl) as (approved2 & Hret & _ & Hhist).
  exists approved2. split; [exact Hret|exact Hhist].
Defined.

(** An update of the record [m2] on the small world. *)
Example updateMedicine_demo :
  let run := updateMedicine Demo.env "m2" {["stock" := VNum Num.five]} Demo.started in
  run.1 = inr (Some (<["stock" := VNum Num.five]> Demo.medB2)) ∧
  medicines (store run.2) = [Demo.medB1; <["stock" := VNum Num.five]> Demo.medB2] ∧
  loading (store run.2) = false.
Proof. by vm_compute. Qed.

(** Updating the stock of the record [m2]. *)
Lemma updateMedicine_merges_response_witness :
  let run := updateMedicine Demo.env "m2" {["stock" := VNum Num.five]} Demo.started in
  loading (store run.2) = false ∧
  run.1 = inr (Some (Store.mergeFields Demo.medB2 {["stock" := VNum Num.five]})) ∧
  medicines (store run.2) !! 0%nat = Some Demo.medB1.
Proof.
  destruct (updateMedicine_merges_response Demo.env "m2" {["stock" := VNum Num.five]}
              Demo.loaded [])
    as (Hloading & _ & Hframe & _ & Hret).
  split; [exact Hloading|]. split.
  - exact (Hret [Demo.medB1] Demo.medB2 [] eq_refl eq_refl ltac:(constructor)).
  - exact (Hframe 0%nat Demo.medB1 eq_refl eq_refl).
Defined.

(** Updating and approving an identifier no record has. *)
Lemma no_match_returns_null_witness :
  (updateMedicine Demo.env "m9" {["stock" := VNum Num.five]} Demo.started).1 = inr None ∧
  (approveMedicine Demo.env "m9" Demo.started).1 = inr None ∧
  calls (approveMedicine Demo.env "m9" Demo.started).2 =
    [EvFirestoreUpdate "m9" approvalPayload].
Proof.
  destruct (no_match_returns_null Demo.env Demo.offline "m9"
              {["stock" := VNum Num.five]} Demo.loaded []
              ltac:(repeat constructor) eq_refl eq_refl eq_refl eq_refl)
    as ((Hupd & _) & (Happ & Hcalls & _)).
  split; [exact Hupd|]. split; [exact Happ|exact Hcalls].
Defined.

(* ===================================================================== *)
(** * More of the store, the service and the page *)
(* ===================================================================== *)

(** ** What every operation leaves behind *)

Lemma fetch_frame js env lookup s t :
  let run := Store.fetchMedicines js env lookup {| store := s; calls := t |} in
  run.1 = inr () ∧ loading (store run.2) = false ∧
  ((isInitialized (store run.2) = true ∧ error (store run.2) = error s) ∨
   (isInitialized (store run.2) = isInitialized s ∧
    error (store run.2) = Some "Failed to fetch medicines" ∧
    medicines (store run.2) = medicines s)).
Proof.
  unfold Store.fetchMedicines, Store.fetchAttempt, Store.setLoading,
    Store.getMedicinesFromFirestore, try_catch, bind, set_, liftIO, call; simpl.
  destruct (firestore_list env t) as [e|meds]; simpl; [by auto 10|].
  destruct (Store.mergeLoop js lookup meds [] _) as [[e|merged] t']; simpl; by auto 10.
Qed.

Lemma add_frame js env getOnChain addOnChain payload s t :
  let run := Store.addMedicine js env getOnChain addOnChain payload
               {| store := s; calls := t |} in
  loading (store run.2) = false ∧
  isInitialized (store run.2) = isInitialized s ∧
  error (store run.2) = error s ∧
  ((run.1 = inr None ∧ medicines (store run.2) = medicines s) ∨
   (∃ newMed, run.1 = inr (Some newMed) ∧
      medicines (store run.2) = newMed :: medicines s)).
Proof.
  unfold Store.addMedicine, Store.setLoading, Store.setMedicines,
    Store.addMedicineToFirestore, try_finally, try_catch, bind, set_, liftIO, ret,
    call; simpl.
  destruct (addOnChain _ t) as [[e|txHash] t1]; simpl; [by auto 10|].
  destruct (getOnChain _ t1) as [[e|chainData] t2]; simpl; [by auto 10|].
  destruct (firestore_add env t2 _) as [e|newMed]; simpl; [by auto 10|].
  split_and!; try done. right. by eexists.
Qed.

Lemma update_frame env id payload s t :
  let run := updateMedicine env id payload {| store := s; calls := t |} in
  (∃ r, run.1 = inr r) ∧
  loading (store run.2) = false ∧
  isInitialized (store run.2) = isInitialized s ∧
  error (store run.2) = error s ∧
  length (medicines (store run.2)) = length (medicines s).
Proof.
  simpl. rewrite updateMedicine_run.
  destruct (firestore_update env t id payload) as [e|updatedData]; simpl.
  - split_and!; try done. by eexists.
  - split_and!; try done; [by eexists|by rewrite length_fmap].
Qed.

Lemma approve_frame env id s t :
  let run := approveMedicine env id {| store := s; calls := t |} in
  (∃ r, run.1 = inr r) ∧
  loading (store run.2) = false ∧
  isInitialized (store run.2) = isInitialized s ∧
  error (store run.2) = error s.
Proof.
  unfold approveMedicine, Store.approveMedicine, Store.setLoading, Store.setMedicines,
    Store.updateMedicineInFirestore, try_finally, try_catch, bind, set_, liftIO, ret,
    call; simpl.
  destruct (firestore_update env t id _) as [e|updatedData]; simpl.
  - split_and!; try done. by eexists.
  - destruct (Store.approveMap env id (medicines s) None _) as [[e|r] t']; simpl;
      (split_and!; try done; by eexists).
Qed.

(** X1: none of the four operations of the store ever rejects, and each
    ends with the loading flag false: the fetch for any lookup function
    the store is linked with, the add for any pair of ledger functions,
    the update and the approval as they are. *)
Theorem operations_settle js env lookup getOnChain addOnChain id payload w :
  let fetched := Store.fetchMedicines js env lookup w in
  let added := Store.addMedicine js env getOnChain addOnChain payload w in
  let updated := updateMedicine env id payload w in
  let approved := approveMedicine env id w in
  (resolves fetched.1 = true ∧ loading (store fetched.2) = false) ∧
  (resolves added.1 = true ∧ loading (store added.2) = false) ∧
  (resolves updated.1 = true ∧ loading (store updated.2) = false) ∧
  (resolves approved.1 = true ∧ loading (store approved.2) = false).
Proof.
  destruct w as [s t]. simpl. split_and!.
  - by destruct (fetch_frame js env lookup s t) as (-> & _).
  - by destruct (fetch_frame js env lookup s t) as (_ & -> & _).
  - by destruct (add_frame js env getOnChain addOnChain payload s t)
      as (_ & _ & _ & [[-> _]|(newMed & -> & _)]).
  - by destruct (add_frame js env getOnChain addOnChain payload s t) as (-> & _).
  - by destruct (update_frame env id payload s t) as ([r ->] & _).
  - by destruct (update_frame env id payload s t) as (_ & -> & _).
  - by destruct (approve_frame env id s t) as ([r ->] & _).
  - by destruct (approve_frame env id s t) as (_ & -> & _).
Qed.

Lemma perform_frame js env op w :
  let w' := perform js env op w in
  loading (store w') = false ∧
  (isInitialized (store w) = true → isInitialized (store w') = true) ∧
  (error (store w') = error (store w) ∨
   error (store w') = Some "Failed to fetch medicines") ∧
  (isFetch op = false →
     isInitialized (store w') = isInitialized (store w) ∧
     error (store w') = error (store w)).
Proof.
  destruct w as [s t], op as [|payload|id payload|id]; simpl.
  - destruct (fetch_frame js env (Service.getMedicineOnChain js env) s t)
      as (_ & Hl & [[Hi He]|(Hi & He & _)]); unfold fetchMedicines;
      rewrite ?Hl, ?Hi, ?He; split_and!; (done || auto).
  - destruct (add_frame js env (Service.getMedicineOnChain js env)
                (Service.addMedicineOnChain js env) payload s t)
      as (Hl & Hi & He & _); unfold addMedicine; rewrite Hl, Hi, He;
      split_and!; (done || auto).
  - destruct (update_frame env id payload s t) as (_ & Hl & Hi & He & _).
    rewrite Hl, Hi, He; split_and!; (done || auto).
  - destruct (approve_frame env id s t) as (_ & Hl & Hi & He).
    rewrite Hl, Hi, He; split_and!; (done || auto).
Qed.

(** A sequence without a fetch changes neither the initialisation flag
    nor the error. *)
Lemma performAll_no_fetch js env ops w :
  forallb (λ op, negb (isFetch op)) ops = true →
  isInitialized (store (performAll js env ops w)) = isInitialized (store w) ∧
  error (store (performAll js env ops w)) = error (store w).
Proof.
  revert w. induction ops as [|op ops IH]; intros w; simpl; [done|].
  intros [Hop%negb_true_iff Hops]%andb_true_iff.
  fold (performAll js env ops (perform js env op w)).
  destruct (IH (perform js env op w) Hops) as [-> ->].
  destruct (perform_frame js env op w) as (_ & _ & _ & Hn). by apply Hn.
Qed.

(** X2: over any sequence of operations, started in any world. After a
    sequence that is not empty the loading flag is false. The
    initialisation flag, once true, stays true. The error is never
    cleared: at the end it is the one of the start or the message of a
    failed fetch. And a sequence without a fetch changes neither the
    initialisation flag nor the error. *)
Theorem sequence_invariants js env ops w :
  let w' := performAll js env ops w in
  (ops ≠ [] → loading (store w') = false) ∧
  (isInitialized (store w) = true → isInitialized (store w') = true) ∧
  (error (store w') = error (store w) ∨
   error (store w') = Some "Failed to fetch medicines") ∧
  (forallb (λ op, negb (isFetch op)) ops = true →
     isInitialized (store w') = isInitialized (store w) ∧
     error (store w') = error (store w)).
Proof.
  simpl. split_and!; [| | |apply performAll_no_fetch].
  - destruct ops as [|op ops] using rev_ind; [done|]. intros _.
    unfold performAll. rewrite foldl_app. simpl.
    by destruct (perform_frame js env op (foldl (λ w op, perform js env op w) w ops))
      as (Hl & _).
  - revert w. induction ops as [|op ops IH]; intros w Hi; simpl; [done|].
    apply IH. by destruct (perform_frame js env op w) as (_ & Hi' & _); auto.
  - revert w. induction ops as [|op ops IH]; intros w; simpl; [by left|].
    destruct (IH (perform js env op w)) as [Hsame|Hmsg]; [|by right].
    rewrite Hsame. by destruct (perform_frame js env op w) as (_ & _ & He & _).
Qed.

(** ** More on the fetch *)

(** A fetch whose list call is rejected: the whole run. *)
Lemma fetchMedicines_rejected js env s t e :
  firestore_list env t = inl e →
  fetchMedicines js env {| store := s; calls := t |} =
    (inr (),
     {| store := {| medicines := medicines s;
                    isInitialized := isInitialized s;
                    error := Some "Failed to fetch medicines";
                    loading := false |};
        calls := (t ++ [EvFirestoreList])%list |}).
Proof.
  intros Hlist.
  unfold fetchMedicines, Store.fetchMedicines, Store.fetchAttempt, Store.setLoading,
    Store.getMedicinesFromFirestore, try_catch, bind, set_, liftIO, call; simpl.
  by rewrite Hlist.
Qed.

Lemma forallb_isRead_readsOf meds : forallb isRead (readsOf meds) = true.
Proof. induction meds; simpl; auto. Qed.

(** X3: a fetch talks to the outside world by reading only. It makes
    the list call and then, when that resolved, one ledger read per
    listed record, for the records' batch numbers in the order of the
    list; it never writes to the database or to the ledger and never
    asks for the time. *)
Theorem fetch_only_reads js env s t :
  let run := fetchMedicines js env {| store := s; calls := t |} in
  let suffix :=
    EvFirestoreList ::
      match firestore_list env t with
      | inr meds => readsOf meds
      | inl _ => []
      end in
  calls run.2 = (t ++ suffix)%list ∧
  forallb isRead suffix = true ∧
  (∀ meds, firestore_list env t = inr meds →
     length suffix = S (length meds) ∧
     ∀ i med, meds !! i = Some med →
       suffix !! S i = Some (EvContractRead (JS.get med "batchNo"))).
Proof.
  simpl. destruct (firestore_list env t) as [e|meds] eqn:Hlist.
  - rewrite (fetchMedicines_rejected _ _ _ _ _ Hlist). done.
  - rewrite (fetchMedicines_run _ _ _ _ _ Hlist). simpl.
    split_and!; [done|apply forallb_isRead_readsOf|].
    intros ? [= <-]. split.
    + unfold readsOf. by rewrite length_fmap.
    + intros i med Hi. unfold readsOf. by rewrite list_lookup_fmap, Hi.
Qed.

(** X4: a fetch whose list call resolves rebuilds the record list from
    the listed records alone: whatever the store held before, records
    prepended by an add included, the published list is the same, with
    one record per listed record, each with the identifier, name and
    quantity the database listed. *)
Theorem fetch_replaces_list js env s1 s2 t meds :
  firestore_list env t = inr meds →
  let run1 := fetchMedicines js env {| store := s1; calls := t |} in
  let run2 := fetchMedicines js env {| store := s2; calls := t |} in
  medicines (store run1.2) = medicines (store run2.2) ∧
  length (medicines (store run1.2)) = length meds ∧
  ∀ i r, medicines (store run1.2) !! i = Some r →
    ∃ med, meds !! i = Some med ∧
      r !! "id" = med !! "id" ∧ r !! "batchNo" = med !! "batchNo" ∧
      r !! "name" = med !! "name" ∧ r !! "quantity" = med !! "quantity".
Proof.
  intros Hlist. simpl. rewrite !(fetchMedicines_run _ _ _ _ _ Hlist). simpl.
  split_and!; [done|apply mergeAll_length|].
  intros i r Hr.
  destruct (meds !! i) as [med|] eqn:Hi.
  - rewrite (mergeAll_lookup _ _ _ _ _ _ Hi) in Hr. injection Hr as <-.
    exists med. split; [done|].
    unfold Store.mergeRecord.
    destruct (ledgerAnswer _ _ _ _) as [cd|]; [destruct (ChainData.exists_ cd)|];
      by simplify_map_eq.
  - apply lookup_ge_None in Hi. apply lookup_lt_Some in Hr.
    rewrite mergeAll_length in Hr. lia.
Qed.

Lemma ledgerAnswer_stable js env t t' batch :
  contract_getMedicine env t batch = contract_getMedicine env t' batch →
  ledgerAnswer js env t batch = ledgerAnswer js env t' batch.
Proof.
  intros H. unfold ledgerAnswer, Service.getMedicineOnChain, try_catch, bind, call.
  rewrite H. destruct (contract_getMedicine env t' batch) as [e|data]; [done|].
  by destruct data.
Qed.

Lemma mergeAll_stable js env t t' meds :
  (∀ t t' batch, contract_getMedicine env t batch = contract_getMedicine env t' batch) →
  mergeAll js env t meds = mergeAll js env t' meds.
Proof.
  intros Hstable. revert t t'. induction meds as [|med rest IH]; intros t t'; simpl.
  - done.
  - f_equal; [|apply IH]. f_equal. by apply ledgerAnswer_stable.
Qed.

(** X5: when the answers of the list call and of the contract read do
    not change with the calls made, fetching twice leaves the store as
    fetching once does: the same records after two successful fetches,
    the same error after two failed ones. *)
Theorem fetch_twice js env w :
  stableReads env →
  let once := (fetchMedicines js env w).2 in
  let twice := (fetchMedicines js env once).2 in
  store twice = store once.
Proof.
  intros [Hlist Hread]. destruct w as [s t]. simpl.
  destruct (firestore_list env t) as [e|meds] eqn:Ht.
  - rewrite (fetchMedicines_rejected _ _ _ _ _ Ht). simpl.
    erewrite fetchMedicines_rejected; [done|]. by rewrite <-Ht.
  - rewrite (fetchMedicines_run _ _ _ _ _ Ht). simpl.
    erewrite fetchMedicines_run by (rewrite <-Ht; apply Hlist). simpl.
    f_equal. by apply mergeAll_stable.
Qed.

Lemma reportsExisting_iff js env t batch :
  Store.reportsExisting (ledgerAnswer js env t batch) = true ↔
  ∃ o, contract_getMedicine env t batch = inr (VObj o) ∧
       JS.ToBoolean (JS.get o "exists") = true.
Proof.
  unfold ledgerAnswer, Service.getMedicineOnChain, try_catch, bind, call.
  destruct (contract_getMedicine env t batch) as [e|data]; simpl.
  - split; [done|]. by intros (o & ? & _).
  - destruct data; simpl; try (split; [done|]; by intros (o & ? & _)).
    split; [intros H; by eexists|]. by intros (o & [= <-] & H).
Qed.

(** X6: in a fetch whose list call resolved, the record at position [i]
    is published with both derived labels: a [stockStatus] among the
    three stock labels and a [ledgerStatus] that is On-Chain or Pending
    Confirmation. It is On-Chain exactly when the contract call for its
    batch number resolved to an object whose [exists] is truthy, and
    then its [stock] and [price] are [Number] of that object's [stock]
    and [price] and its [manufacturer] is that object's. An object
    without [exists], or a result that is not an object, gives Pending
    Confirmation. *)
Theorem fetch_on_chain_iff js env s t meds i med :
  firestore_list env t = inr meds →
  meds !! i = Some med →
  let run := fetchMedicines js env {| store := s; calls := t |} in
  let answer := contract_getMedicine env (lookupTime t meds i) (JS.get med "batchNo") in
  ∃ r, medicines (store run.2) !! i = Some r ∧
    (r !! "ledgerStatus" = Some (VStr "On-Chain") ∨
     r !! "ledgerStatus" = Some (VStr "Pending Confirmation")) ∧
    (r !! "stockStatus" = Some (VStr "Out of Stock") ∨
     r !! "stockStatus" = Some (VStr "Low Stock") ∨
     r !! "stockStatus" = Some (VStr "In Stock")) ∧
    (r !! "ledgerStatus" = Some (VStr "On-Chain") ↔
       ∃ o, answer = inr (VObj o) ∧ JS.ToBoolean (JS.get o "exists") = true) ∧
    (∀ o, answer = inr (VObj o) → JS.ToBoolean (JS.get o "exists") = true →
       r !! "stock" = Some (VNum (JS.ToNumber js (JS.get o "stock"))) ∧
       r !! "price" = Some (VNum (JS.ToNumber js (JS.get o "price"))) ∧
       r !! "manufacturer" = Some (JS.get o "manufacturer")).
Proof.
  intros Hlist Hi. simpl. rewrite (fetchMedicines_run _ _ _ _ _ Hlist); simpl.
  eexists. split.
  { by rewrite (mergeAll_lookup _ _ _ _ _ _ Hi), lookupTime_eq. }
  pose proof (reportsExisting_iff js env (lookupTime t meds i) (JS.get med "batchNo"))
    as Hiff.
  pose proof (mergeRecord_stockStatus js
                (ledgerAnswer js env (lookupTime t meds i) (JS.get med "batchNo")) med)
    as Hstock. simpl in Hstock.
  split_and!.
  - destruct (Store.reportsExisting (ledgerAnswer js env (lookupTime t meds i)
                (JS.get med "batchNo"))) eqn:Hex.
    + destruct (ledgerAnswer _ _ _ _) as [cd|]; [|done].
      left. by apply mergeRecord_on_chain.
    + right. rewrite mergeRecord_pending by done. by simplify_map_eq.
  - rewrite Hstock. unfold getStockStatus. repeat case_match; auto.
  - rewrite <-Hiff.
    destruct (Store.reportsExisting (ledgerAnswer js env (lookupTime t meds i)
                (JS.get med "batchNo"))) eqn:Hex.
    + destruct (ledgerAnswer _ _ _ _) as [cd|]; [|done].
      split; [done|]. intros _. by apply mergeRecord_on_chain.
    + rewrite mergeRecord_pending by done. split; [|done]. by simplify_map_eq.
  - intros o Ho Hex.
    assert (ledgerAnswer js env (lookupTime t meds i) (JS.get med "batchNo") =
              Some {| ChainData.name := JS.get o "name";
                      ChainData.batch := JS.get o "batch";
                      ChainData.manufacturer := JS.get o "manufacturer";
                      ChainData.price := JS.ToNumber js (JS.get o "price");
                      ChainData.stock := JS.ToNumber js (JS.get o "stock");
                      ChainData.mfgDate := JS.ToNumber js (JS.get o "mfgDate");
                      ChainData.expDate := JS.ToNumber js (JS.get o "expDate");
                      ChainData.exists_ := JS.ToBoolean (JS.get o "exists") |}) as ->.
    { unfold ledgerAnswer, Service.getMedicineOnChain, try_catch, bind, call.
      by rewrite Ho. }
    unfold Store.mergeRecord. simpl. rewrite Hex. by simplify_map_eq.
Qed.

(** ** More on the add *)

(** X7: whatever the world answers, an add either returns [null] and
    leaves the record list as it was, or returns a record and puts it in
    front of the list as it was. It returns a record only when the
    database create resolved to it, as the third call after the ledger
    write and the ledger read; no record already in the list is changed,
    moved or dropped. *)
Theorem addMedicine_outcome js env payload s t :
  let run := addMedicine js env payload {| store := s; calls := t |} in
  let args := Store.writeArgs js payload in
  let batch := JS.get payload "batchNo" in
  (run.1 = inr None ∧ medicines (store run.2) = medicines s) ∨
  (∃ newMed fields,
     run.1 = inr (Some newMed) ∧
     medicines (store run.2) = newMed :: medicines s ∧
     calls run.2 =
       (t ++ [EvContractWrite args; EvContractRead batch; EvFirestoreAdd fields])%list ∧
     firestore_add env (t ++ [EvContractWrite args; EvContractRead batch])%list fields
       = inr newMed).
Proof.
  unfold addMedicine, Store.addMedicine, Store.setLoading, Store.setMedicines,
    Store.addMedicineToFirestore, try_finally, try_catch, bind, set_, liftIO, ret;
    simpl.
  rewrite addMedicineOnChain_run.
  destruct (window_ethereum env); simpl; [|by left].
  destruct (contract_addMedicine env t _) as [e|txHash]; simpl; [by left|].
  rewrite getMedicineOnChain_run; simpl. unfold call.
  replace ((t ++ [EvContractWrite (Store.writeArgs js payload)]) ++
             [EvContractRead (JS.get payload "batchNo")])%list
    with (t ++ [EvContractWrite (Store.writeArgs js payload);
                EvContractRead (JS.get payload "batchNo")])%list
    by (by rewrite <-app_assoc).
  destruct (firestore_add env _ _) as [e|newMed] eqn:Hadd; simpl; [by left|].
  right. eexists _, _. split_and!; [done|done| |exact Hadd].
  by rewrite <-app_assoc.
Qed.

(** X8: when the ledger write went through and the database create is
    then rejected, the add returns [null] with the record list unchanged
    and the loading flag false, although the log shows the write on the
    ledger: the batch is on the ledger and neither in the database nor
    in the store. *)
Theorem addMedicine_create_rejected js env payload s t txHash e :
  let args := Store.writeArgs js payload in
  let batch := JS.get payload "batchNo" in
  let chainData := ledgerAnswer js env (t ++ [EvContractWrite args])%list batch in
  let fields := Store.newMedicineFields payload txHash (Store.resolveLedgerStatus chainData) in
  let run := addMedicine js env payload {| store := s; calls := t |} in
  window_ethereum env = true →
  contract_addMedicine env t args = inr txHash →
  firestore_add env (t ++ [EvContractWrite args; EvContractRead batch])%list fields
    = inl e →
  run.1 = inr None ∧
  medicines (store run.2) = medicines s ∧
  loading (store run.2) = false ∧
  calls run.2 =
    (t ++ [EvContractWrite args; EvContractRead batch; EvFirestoreAdd fields])%list.
Proof.
  intros args batch chainData fields run Hw Hc Hadd.
  unfold run, addMedicine, Store.addMedicine, Store.setLoading, Store.setMedicines,
    Store.addMedicineToFirestore, try_finally, try_catch, bind, set_, liftIO, ret;
    simpl.
  rewrite addMedicineOnChain_run, Hw; simpl. fold args. rewrite Hc; simpl.
  rewrite getMedicineOnChain_run; simpl. unfold call. fold batch chainData fields.
  replace ((t ++ [EvContractWrite args]) ++ [EvContractRead batch])%list
    with (t ++ [EvContractWrite args; EvContractRead batch])%list
    by (by rewrite <-app_assoc).
  rewrite Hadd; simpl. split_and!; try done. by rewrite <-app_assoc.
Qed.

(** ** The write wrapper *)

(** [addMedicineOnChain] without a wallet rejects with the error
    "MetaMask not installed!" and calls nothing; with a wallet it makes
    one contract write with the seven arguments it was given, unchanged,
    and settles as that call does, rejecting with the call's own error. *)
Lemma addMedicineOnChain_settles js env args t :
  Service.addMedicineOnChain js env args t =
    if window_ethereum env
    then (contract_addMedicine env t args, (t ++ [EvContractWrite args])%list)
    else (inl (Error "MetaMask not installed!"), t).
Proof.
  unfold Service.addMedicineOnChain, try_catch, throw, call.
  destruct args. destruct (window_ethereum env); simpl; [|done].
  by destruct (contract_addMedicine _ _ _).
Qed.

(** ** More on the approval *)

Lemma noneHasId_cons id m ms :
  noneHasId id (m :: ms) ↔ Store.hasId id m = false ∧ noneHasId id ms.
Proof. unfold noneHasId. by rewrite Forall_cons. Qed.

Lemma historyThrows_cons id m ms :
  historyThrows id (m :: ms) ↔
  (Store.hasId id m = true ∧ resolves (priorHistory m) = false) ∨ historyThrows id ms.
Proof. unfold historyThrows. by rewrite Exists_cons. Qed.

Lemma approvedFrom_none id ms ms' :
  noneHasId id ms → Forall2 (approvedFrom id) ms ms' → ms' = ms.
Proof.
  intros Hnone H. induction H as [|m m' ms ms' Hm _ IH]; [done|].
  apply noneHasId_cons in Hnone as [Hid Hnone].
  unfold approvedFrom in Hm. rewrite Hid in Hm. subst m'. f_equal. by apply IH.
Qed.

(** The pass of [approveMedicine] over the list, in general. *)
Lemma approveMap_spec env id ms acc t :
  match Store.approveMap env id ms acc t with
  | (inl _, _) => historyThrows id ms
  | (inr (ms', approved), _) =>
      Forall2 (approvedFrom id) ms ms' ∧
      ¬ historyThrows id ms ∧
      (noneHasId id ms → approved = acc) ∧
      (¬ noneHasId id ms →
         ∃ a, approved = Some a ∧ a ∈ ms' ∧ Store.hasId id a = true)
  end.
Proof.
  revert acc t. induction ms as [|m rest IH]; intros acc t; simpl.
  - split_and!; [constructor|by intros ?%Exists_nil|done|].
    intros []. constructor.
  - destruct (Store.hasId id m) eqn:Hm.
    + unfold bind at 1, settle.
      destruct (JS.spread _) as [e|prior] eqn:Hprior.
      { apply historyThrows_cons. left. unfold priorHistory. by rewrite Hprior. }
      unfold bind at 1, Store.now, call. unfold bind at 1.
      specialize (IH (Some (Store.approvedRecord m prior (clock env t)))
                    (t ++ [EvClock])%list).
      destruct (Store.approveMap env id rest _ _) as [[e|[ms' approved]] t'].
      { apply historyThrows_cons. by right. }
      destruct IH as (Hall & Hthrow & Hnone & Hsome). simpl.
      split_and!.
      * constructor; [|done]. unfold approvedFrom. rewrite Hm. by eexists _, _.
      * intros [[_ Hres]|?]%historyThrows_cons; [|done].
        unfold priorHistory in Hres. by rewrite Hprior in Hres.
      * intros [? _]%noneHasId_cons. congruence.
      * intros _. unfold noneHasId in *.
        destruct (decide (Forall (λ m0, Store.hasId id m0 = false) rest)) as [Hr|Hr].
        -- eexists. split; [by apply Hnone|]. split; [by left|].
           by rewrite hasId_approvedRecord.
        -- destruct (Hsome Hr) as (a & -> & Ha & Hid).
           exists a. split; [done|]. split; [by right|done].
    + unfold bind at 1. specialize (IH acc t).
      destruct (Store.approveMap env id rest acc t) as [[e|[ms' approved]] t'].
      { apply historyThrows_cons. by right. }
      destruct IH as (Hall & Hthrow & Hnone & Hsome). simpl.
      split_and!.
      * constructor; [|done]. unfold approvedFrom. by rewrite Hm.
      * intros [[? _]|?]%historyThrows_cons; [congruence|done].
      * intros [_ ?]%noneHasId_cons. auto.
      * intros Hn. destruct Hsome as (a & -> & Ha & Hid).
        { intros ?. apply Hn. by apply noneHasId_cons. }
        exists a. split; [done|]. split; [by right|done].
Qed.

(** X9: an approval is all or nothing, for any list and any world. It
    returns [null] exactly when the database update is rejected, or no
    record has the identifier, or spreading the history of a record with
    the identifier throws; and then the record list is unchanged, also
    when records earlier in the list had already been gone through.
    Otherwise it returns a record of the new list that has the identifier,
    and the new list is the old one, in order, with every record that has
    the identifier given the status and one more history entry and every
    other record kept. *)
Theorem approveMedicine_all_or_nothing env id s t :
  let run := approveMedicine env id {| store := s; calls := t |} in
  (run.1 = inr None ↔
     resolves (firestore_update env t id approvalPayload) = false ∨
     noneHasId id (medicines s) ∨
     historyThrows id (medicines s)) ∧
  (run.1 = inr None → medicines (store run.2) = medicines s) ∧
  (∀ a, run.1 = inr (Some a) →
     Forall2 (approvedFrom id) (medicines s) (medicines (store run.2)) ∧
     a ∈ medicines (store run.2) ∧ Store.hasId id a = true).
Proof.
  unfold approveMedicine, Store.approveMedicine, Store.setLoading, Store.setMedicines,
    Store.updateMedicineInFirestore, try_finally, try_catch, bind, set_, liftIO, ret,
    call; simpl.
  fold approvalPayload.
  destruct (firestore_update env t id approvalPayload) as [e|updatedData]; simpl.
  { split_and!; [|done|done]. split; [by left|done]. }
  pose proof (approveMap_spec env id (medicines s) None
                (t ++ [EvFirestoreUpdate id approvalPayload])%list) as Hspec.
  destruct (Store.approveMap env id (medicines s) None _)
    as [[e|[ms' approved]] t']; simpl.
  { split_and!; [|done|done]. split; [by auto|done]. }
  destruct Hspec as (Hall & Hthrow & Hnone & Hsome).
  unfold noneHasId in *.
  destruct (decide (Forall (λ m, Store.hasId id m = false) (medicines s))) as [Hn|Hn].
  - rewrite (Hnone Hn). split_and!; [|intros _|done].
    + split; [by auto|done].
    + by apply (approvedFrom_none id).
  - destruct (Hsome Hn) as (a & -> & Ha & Hid). split_and!.
    + split; [done|]. intros [?|[?|?]]; done.
    + done.
    + by intros ? [= <-].
Qed.

(** ** More on the update *)

Lemma updatedRecords_nil_iff id updatedData ms :
  updatedRecords id updatedData ms = [] ↔ noneHasId id ms.
Proof.
  split; [|apply updatedRecords_none].
  unfold updatedRecords, noneHasId. induction ms as [|m rest IH]; [done|].
  destruct (Store.hasId id m) eqn:Hm.
  - rewrite filter_cons_True by (rewrite Hm; exact I). done.
  - rewrite filter_cons_False by (rewrite Hm; intros []).
    intros H. constructor; [done|by apply IH].
Qed.

Lemma hasId_mergeFields id m updatedData :
  updatedData !! "id" = None →
  Store.hasId id (Store.mergeFields m updatedData) = Store.hasId id m.
Proof.
  intros H. unfold Store.hasId, Store.mergeFields. by rewrite lookup_union_r.
Qed.

(** X10: an update returns [null] exactly when the database update is
    rejected or no record has the identifier. A response without any
    property leaves every record as it was, and the record with the
    identifier is still returned. *)
Theorem updateMedicine_null_iff env id payload s t :
  let run := updateMedicine env id payload {| store := s; calls := t |} in
  (run.1 = inr None ↔
     resolves (firestore_update env t id payload) = false ∨
     noneHasId id (medicines s)) ∧
  (firestore_update env t id payload = inr ∅ →
     medicines (store run.2) = medicines s ∧
     ∀ pre m post, medicines s = (pre ++ m :: post)%list →
       Store.hasId id m = true → noneHasId id post → run.1 = inr (Some m)).
Proof.
  simpl. rewrite updateMedicine_run.
  destruct (firestore_update env t id payload) as [e|updatedData]; simpl.
  - split; [|done]. split; [by left|done].
  - split.
    + rewrite <-(updatedRecords_nil_iff id updatedData), <-last_None.
      split; [intros [= Hl]; by right|]. intros [?|Hl]; [done|by rewrite Hl].
    + intros [= ->]. split.
      * induction (medicines s) as [|m rest IH]; [done|].
        rewrite fmap_cons, IH. unfold Store.mergeFields.
        rewrite (left_id_L ∅ (∪)). by destruct (Store.hasId id m).
      * intros pre m post -> Hm Hpost. rewrite updatedRecords_last by done.
        unfold Store.mergeFields. by rewrite (left_id_L ∅ (∪)).
Qed.

(** X11: two updates of the same identifier, one after the other, whose
    responses are [d1] and then [d2], [d1] without an [id], leave the
    list that one update with the response [{...d1, ...d2}] leaves: in
    every record with the identifier a property has the value of [d2] if
    [d2] has it, else that of [d1] if [d1] has it, else its old value. *)
Theorem updateMedicine_twice env id p1 p2 s t d1 d2 :
  firestore_update env t id p1 = inr d1 →
  d1 !! "id" = None →
  firestore_update env (t ++ [EvFirestoreUpdate id p1])%list id p2 = inr d2 →
  let after1 := (updateMedicine env id p1 {| store := s; calls := t |}).2 in
  let after2 := (updateMedicine env id p2 after1).2 in
  medicines (store after2) =
    (λ m, if Store.hasId id m then Store.mergeFields m (d2 ∪ d1) else m)
      <$> medicines s ∧
  ∀ m k, Store.mergeFields m (d2 ∪ d1) !! k =
    match d2 !! k with
    | Some v => Some v
    | None => match d1 !! k with
              | Some v => Some v
              | None => m !! k
              end
    end.
Proof.
  intros H1 Hid H2. simpl.
  rewrite updateMedicine_run, H1. simpl.
  rewrite updateMedicine_run, H2. simpl.
  split.
  - rewrite <-list_fmap_compose. apply list_fmap_ext. intros _ m _. simpl.
    destruct (Store.hasId id m) eqn:Hm.
    + rewrite hasId_mergeFields, Hm by done.
      unfold Store.mergeFields. by rewrite (assoc_L (∪)).
    + by rewrite Hm.
  - intros m k. unfold Store.mergeFields. rewrite !lookup_union.
    by destruct (d2 !! k), (d1 !! k), (m !! k).
Qed.

(* ===================================================================== *)
(** * The stock page *)
(* ===================================================================== *)

Lemma status_cases js med :
  Page.status js med = "Out of Stock" ∨ Page.status js med = "Low Stock" ∨
  Page.status js med = "In Stock".
Proof. unfold Page.status, getUIStockStatus. repeat case_match; auto. Qed.

(** X12: the status the page shows comes from [Number(med.quantity || 0)],
    so a quantity that is missing, [null], zero, NaN, [false] or the
    empty string is Out of Stock; and for a numeric quantity [n] the page
    shows Out of Stock iff [n <= 0] or [n] is NaN, Low Stock iff
    [0 < n <= 50] and In Stock iff [n > 50]: NaN never counts as In
    Stock on the page. *)
Theorem page_status_of_quantity js med :
  (JS.ToBoolean (JS.get med "quantity") = false →
     Page.qty js med = Num.zero ∧ Page.status js med = "Out of Stock") ∧
  (∀ n, med !! "quantity" = Some (VNum n) →
     (Page.status js med = "Out of Stock" ↔ Num.le n Num.zero = true ∨ n = Num.NaN) ∧
     (Page.status js med = "Low Stock" ↔
        Num.lt Num.zero n = true ∧ Num.le n Num.fifty = true) ∧
     (Page.status js med = "In Stock" ↔ Num.lt Num.fifty n = true)).
Proof.
  split.
  - intros H. unfold Page.status, Page.qty, JS.or. by rewrite H.
  - intros n Hn. unfold Page.status, Page.qty, JS.or, JS.get. rewrite Hn. simpl.
    destruct (Num.truthy n) eqn:Ht; simpl.
    + assert (n ≠ Num.NaN) as Hnan by (intros ->; done).
      unfold getUIStockStatus.
      destruct (Num.le n Num.zero) eqn:H0.
      * pose proof (le_zero_le_fifty _ H0) as H50.
        split_and!; [split; auto|split; [done|]|split; [done|]].
        -- intros [H _]. apply lt_zero_iff in H as [? _]. congruence.
        -- intros H. assert (Num.le n Num.fifty = false); [|congruence].
           apply not_le_iff. by left.
      * destruct (Num.le n Num.fifty) eqn:H50.
        -- split_and!; [split; [done|intros [?|?]; done]| |split; [done|]].
           ++ split; [intros _|done]. split; [|done]. by apply lt_zero_iff.
           ++ intros H. assert (Num.le n Num.fifty = false); [|congruence].
              apply not_le_iff. by left.
        -- split_and!; [split; [done|intros [?|?]; done]|split; [done|by intros [_ ?]]|].
           split; [intros _|done]. apply not_le_iff in H50.
           destruct H50 as [?|[?|?]]; done.
    + assert (Num.le n Num.zero = true ∨ n = Num.NaN) as Hn0.
      { destruct n; try done; auto. }
      assert (Num.lt Num.zero n = false) as Hlt0 by (by destruct n).
      assert (Num.lt Num.fifty n = false) as Hlt50 by (by destruct n).
      rewrite Hlt0, Hlt50. cbn. split_and!; split; try done. by intros [? _].
Qed.

(** The rows of one status, as the filter keeps them. *)
Lemma filtered_status js k ms :
  String.eqb k "All" = false →
  Page.filtered js k ms = List.filter (λ m, String.eqb (Page.status js m) k) ms.
Proof. intros H. unfold Page.filtered, Page.matchesFilter. by rewrite H. Qed.

Lemma summaryStep_total js acc med k :
  Page.summaryStep js acc med !!! k =
    (acc !!! k +
       if String.eqb k "Total" then 1
       else if String.eqb (Page.status js med) k then 1 else 0)%nat.
Proof.
  unfold Page.summaryStep.
  assert (Page.status js med ≠ "Total") as Hst.
  { by destruct (status_cases js med) as [->|[->| ->]]. }
  destruct (String.eqb_spec k "Total") as [->|Hk].
  - rewrite lookup_total_insert_eq, lookup_total_insert_ne by done. lia.
  - rewrite lookup_total_insert_ne by done.
    destruct (String.eqb_spec (Page.status js med) k) as [<-|Hne].
    + rewrite lookup_total_insert_eq. lia.
    + rewrite lookup_total_insert_ne by done. lia.
Qed.

Lemma summary_fold_total js ms acc k :
  foldl (Page.summaryStep js) acc ms !!! k =
    (acc !!! k +
       if String.eqb k "Total" then length ms
       else length (List.filter (λ m, String.eqb (Page.status js m) k) ms))%nat.
Proof.
  revert acc. induction ms as [|med rest IH]; intros acc; simpl.
  - destruct (String.eqb k "Total"); lia.
  - rewrite IH, summaryStep_total.
    destruct (String.eqb k "Total"); [lia|].
    destruct (String.eqb (Page.status js med) k); simpl; lia.
Qed.

Lemma summaryStep_dom js acc med :
  {["In Stock"; "Low Stock"; "Out of Stock"; "Total"]} ⊆ dom acc →
  dom (Page.summaryStep js acc med) = dom acc.
Proof.
  intros Hdom. unfold Page.summaryStep. rewrite !dom_insert_L.
  assert (Page.status js med ∈ dom acc) as Hst.
  { apply Hdom. destruct (status_cases js med) as [->|[->| ->]];
      rewrite !elem_of_union, !elem_of_singleton; auto. }
  assert ("Total" ∈ dom acc) as Htot.
  { apply Hdom. rewrite !elem_of_union, !elem_of_singleton; auto. }
  apply set_eq. intros k. rewrite !elem_of_union, !elem_of_singleton.
  split; [intros [->|[->|?]]; done|auto].
Qed.

Lemma summary_fold_dom js ms acc :
  {["In Stock"; "Low Stock"; "Out of Stock"; "Total"]} ⊆ dom acc →
  dom (foldl (Page.summaryStep js) acc ms) = dom acc.
Proof.
  revert acc. induction ms as [|med rest IH]; intros acc Hdom; simpl; [done|].
  rewrite IH, summaryStep_dom; [done|done|by rewrite summaryStep_dom].
Qed.

Lemma status_partition js ms :
  (length (Page.filtered js "In Stock" ms) + length (Page.filtered js "Low Stock" ms) +
   length (Page.filtered js "Out of Stock" ms))%nat = length ms.
Proof.
  rewrite !filtered_status by done.
  induction ms as [|med rest IH]; simpl; [done|].
  destruct (status_cases js med) as [->|[->| ->]]; simpl; lia.
Qed.

(** X13: the four counters of the summary cards. [Total] is the number
    of records, each status counter is the number of rows the table
    shows when that status is the filter, the three status counters add
    up to [Total], and the summary has no other counter. *)
Theorem summary_counts js ms :
  let cards := Page.summary js ms in
  dom cards = {["In Stock"; "Low Stock"; "Out of Stock"; "Total"]} ∧
  cards !! "Total" = Some (length ms) ∧
  cards !! "In Stock" = Some (length (Page.filtered js "In Stock" ms)) ∧
  cards !! "Low Stock" = Some (length (Page.filtered js "Low Stock" ms)) ∧
  cards !! "Out of Stock" = Some (length (Page.filtered js "Out of Stock" ms)) ∧
  (cards !!! "In Stock" + cards !!! "Low Stock" + cards !!! "Out of Stock")%nat
    = cards !!! "Total".
Proof.
  simpl. unfold Page.summary.
  assert (dom (foldl (Page.summaryStep js) Page.summaryInit ms) =
            {["In Stock"; "Low Stock"; "Out of Stock"; "Total"]}) as Hdom.
  { assert (dom Page.summaryInit =
              ({["In Stock"; "Low Stock"; "Out of Stock"; "Total"]} : gset string))
      as Hinit by (unfold Page.summaryInit; by rewrite !dom_insert_L, dom_singleton_L).
    rewrite summary_fold_dom; by rewrite Hinit. }
  assert (∀ k, k ∈ ({["In Stock"; "Low Stock"; "Out of Stock"; "Total"]} : gset string) →
            foldl (Page.summaryStep js) Page.summaryInit ms !! k =
              Some (foldl (Page.summaryStep js) Page.summaryInit ms !!! k)) as Hsome.
  { intros k Hk. apply lookup_lookup_total. apply elem_of_dom. by rewrite Hdom. }
  split; [done|].
  rewrite !Hsome by (rewrite !elem_of_union, !elem_of_singleton; auto).
  rewrite !summary_fold_total. simpl.
  rewrite !filtered_status by done.
  pose proof (status_partition js ms) as Hsum. rewrite !filtered_status in Hsum by done.
  split_and!; done.
Qed.

(** X14: the rows the table shows before sorting. With the filter "All"
    they are all the records. With a status as filter they are the
    records the page gives that status, in the order of the list. Every
    record is among the rows of exactly one of the three statuses. A
    filter that is neither "All" nor one of the three statuses shows no
    row. *)
Theorem filtered_rows js f ms :
  Page.filtered js "All" ms = ms ∧
  (f ≠ "All" →
     Page.filtered js f ms `sublist_of` ms ∧
     ∀ m, m ∈ Page.filtered js f ms ↔ m ∈ ms ∧ Page.status js m = f) ∧
  (∀ m, m ∈ ms →
     ∃ st, (st = "In Stock" ∨ st = "Low Stock" ∨ st = "Out of Stock") ∧
       m ∈ Page.filtered js st ms ∧
       ∀ st', st' ≠ "All" → m ∈ Page.filtered js st' ms → st' = st) ∧
  (f ≠ "All" → f ≠ "In Stock" → f ≠ "Low Stock" → f ≠ "Out of Stock" →
     Page.filtered js f ms = []).
Proof.
  assert (∀ k, k ≠ "All" → ∀ m, m ∈ Page.filtered js k ms ↔
            m ∈ ms ∧ Page.status js m = k) as Hin.
  { intros k Hk m. rewrite filtered_status by (by apply String.eqb_neq).
    rewrite !list_elem_of_In, filter_In, String.eqb_eq. tauto. }
  split_and!.
  - unfold Page.filtered, Page.matchesFilter. simpl. apply filter_true.
  - intros Hf. split; [|by apply Hin].
    rewrite filtered_status by (by apply String.eqb_neq). clear Hin.
    induction ms as [|m rest IH]; simpl; [constructor|].
    destruct (String.eqb _ _); [by apply sublist_skip|by apply sublist_cons].
  - intros m Hm. exists (Page.status js m).
    split; [destruct (status_cases js m) as [?|[?|?]]; auto|]. split.
    + apply Hin; [|done]. by destruct (status_cases js m) as [->|[->| ->]].
    + intros st' Hst' [_ <-]%Hin; done.
  - intros H1 H2 H3 H4. rewrite filtered_status by (by apply String.eqb_neq).
    clear Hin. induction ms as [|m rest IH]; simpl; [done|].
    destruct (String.eqb_spec (Page.status js m) f) as [<-|_]; [|done].
    by destruct (status_cases js m) as [?|[?|?]].
Qed.

(** X15: a click on a column header always leaves a sort chosen, on that
    column. Two clicks in a row on one column give the two opposite
    directions, and a third click gives what the first gave; the first
    click on a column that was not the sorted one gives ascending. The
    arrow is shown on the clicked column only: up for ascending, down for
    descending. *)
Theorem requestSort_toggles (c : option Page.SortConfig) (k k' : Page.SortKey) :
  let c1 := Page.requestSort c k in
  let c2 := Page.requestSort c1 k in
  let c3 := Page.requestSort c2 k in
  (∃ d1 d2,
     c1 = Some {| Page.key := k; Page.direction := d1 |} ∧
     c2 = Some {| Page.key := k; Page.direction := d2 |} ∧
     d1 ≠ d2 ∧
     Page.getSortIcon c1 k =
       Some (match d1 with Page.ascending => Page.ArrowUp
                         | Page.descending => Page.ArrowDown end)) ∧
  c3 = c1 ∧
  (k' ≠ k →
     Page.requestSort c1 k' =
       Some {| Page.key := k'; Page.direction := Page.ascending |} ∧
     Page.getSortIcon c1 k' = None) ∧
  ((∀ cfg, c = Some cfg → Page.key cfg ≠ k) →
     c1 = Some {| Page.key := k; Page.direction := Page.ascending |}).
Proof.
  assert (∀ a, Page.sortKey_eqb a a = true) as Hrefl by (by intros []).
  assert (∀ a b, a ≠ b → Page.sortKey_eqb a b = false) as Hne
    by (intros [] []; done).
  simpl. split_and!.
  - unfold Page.requestSort, Page.getSortIcon.
    destruct c as [[kc d]|]; simpl; [destruct (Page.sortKey_eqb kc k), d|]; simpl;
      rewrite ?Hrefl; simpl; eexists _, _; split_and!; done.
  - unfold Page.requestSort.
    destruct c as [[kc d]|]; simpl; [destruct (Page.sortKey_eqb kc k), d|]; simpl;
      rewrite ?Hrefl; simpl; by rewrite ?Hrefl.
  - intros Hk. unfold Page.requestSort, Page.getSortIcon. simpl.
    rewrite (Hne k k') by done. simpl. done.
  - intros Hc. unfold Page.requestSort. destruct c as [cfg|]; [|done].
    rewrite (Hne (Page.key cfg) k) by (by apply Hc). done.
Qed.

(** X16: the page after the automatic load of the store and any number
    of adds, updates and approvals, none of which is a fetch. It shows
    the loader, and nothing else, exactly when the list call of the
    automatic load was rejected, whatever the operations since brought
    into the list; and then the store still holds the fetch's error. *)
Theorem loader_after_autoLoad js env ops :
  forallb (λ op, negb (isFetch op)) ops = true →
  let w := performAll js env ops (autoLoad js env) in
  Page.showsLoader (store w) = negb (resolves (firestore_list env [])) ∧
  (resolves (firestore_list env []) = false →
     error (store w) = Some "Failed to fetch medicines").
Proof.
  intros Hops. simpl.
  destruct (performAll_no_fetch js env ops (autoLoad js env) Hops) as [Hi He].
  unfold Page.showsLoader. rewrite Hi, He.
  unfold autoLoad. destruct (firestore_list env []) as [e|meds] eqn:Hlist.
  - by rewrite (fetchMedicines_rejected _ _ _ _ _ Hlist).
  - by rewrite (fetchMedicines_run _ _ _ _ _ Hlist).
Qed.

(** ** What update and approval send out *)

Lemma approveMap_calls env id ms acc t :
  ∃ n, (Store.approveMap env id ms acc t).2 = (t ++ replicate n EvClock)%list ∧
       (n ≤ length ms)%nat.
Proof.
  revert acc t. induction ms as [|m rest IH]; intros acc t; simpl.
  - exists 0. by rewrite app_nil_r.
  - destruct (Store.hasId id m).
    + unfold bind at 1, settle.
      destruct (JS.spread _) as [e|prior].
      { exists 0. simpl. split; [by rewrite app_nil_r|lia]. }
      unfold bind at 1, Store.now, call. unfold bind at 1.
      destruct (IH (Some (Store.approvedRecord m prior (clock env t)))
                  (t ++ [EvClock])%list) as (n & Hn & Hle).
      destruct (Store.approveMap env id rest _ _) as [[e|r] t']; simpl in *;
        (exists (S n); split; [by rewrite Hn, <-app_assoc|lia]).
    + unfold bind at 1. destruct (IH acc t) as (n & Hn & Hle).
      destruct (Store.approveMap env id rest acc t) as [[e|r] t']; simpl in *;
        (exists n; split; [done|lia]).
Qed.

(** X17: neither an update nor an approval ever calls the ledger or
    creates or lists anything. An update makes one call, the database
    update of the identifier with the payload. An approval makes the
    database update of the identifier with the one-property payload
    [{ listingStatus: "Approved" }], which holds no history entry, and
    after it only reads the clock, at most once per record; the call is
    made whether or not the store holds a record with the identifier. *)
Theorem update_and_approval_calls env id payload w :
  let updated := updateMedicine env id payload w in
  let approved := approveMedicine env id w in
  calls updated.2 = (calls w ++ [EvFirestoreUpdate id payload])%list ∧
  (∃ n, calls approved.2 =
          (calls w ++ EvFirestoreUpdate id approvalPayload :: replicate n EvClock)%list ∧
        (n ≤ length (medicines (store w)))%nat) ∧
  dom approvalPayload = {["listingStatus"]} ∧
  approvalPayload !! "history" = None.
Proof.
  destruct w as [s t]. simpl. split_and!.
  - rewrite updateMedicine_run. by destruct (firestore_update env t id payload).
  - unfold approveMedicine, Store.approveMedicine, Store.setLoading,
      Store.setMedicines, Store.updateMedicineInFirestore, try_finally, try_catch,
      bind, set_, liftIO, ret, call; simpl.
    fold approvalPayload.
    destruct (firestore_update env t id approvalPayload) as [e|updatedData]; simpl.
    { exists 0. split; [done|lia]. }
    destruct (approveMap_calls env id (medicines s) None
                (t ++ [EvFirestoreUpdate id approvalPayload])%list) as (n & Hn & Hle).
    destruct (Store.approveMap env id (medicines s) None _) as [[e|r] t']; simpl in *;
      (exists n; split; [by rewrite Hn, <-app_assoc|done]).
  - unfold approvalPayload. by rewrite dom_singleton_L.
  - done.
Qed.

(* ===================================================================== *)
(** * More runs *)
(* ===================================================================== *)

(** A fetch over a store that holds other records. *)
Lemma fetch_replaces_list_witness :
  medicines (store (fetchMedicines Demo.js Demo.env Demo.started).2) =
  medicines (store (fetchMedicines Demo.js Demo.env Demo.start).2).
Proof.
  destruct (fetch_replaces_list Demo.js Demo.env Demo.loaded initialState []
              [Demo.medB1; Demo.medB2] eq_refl) as (H & _).
  exact H.
Defined.

(** Two fetches on the small world. *)
Lemma fetch_twice_witness :
  store (fetchMedicines Demo.js Demo.env
           (fetchMedicines Demo.js Demo.env Demo.start).2).2 =
  store (fetchMedicines Demo.js Demo.env Demo.start).2.
Proof.
  apply (fetch_twice Demo.js Demo.env Demo.start).
  split; intros; reflexivity.
Defined.

(** The second record of the small world is on the ledger. *)
Lemma fetch_on_chain_iff_witness :
  ∃ r, medicines (store (fetchMedicines Demo.js Demo.env Demo.start).2) !! 1%nat = Some r ∧
    r !! "stock" = Some (VNum Num.five).
Proof.
  destruct (fetch_on_chain_iff Demo.js Demo.env initialState []
              [Demo.medB1; Demo.medB2] 1 Demo.medB2 eq_refl eq_refl)
    as (r & Hr & _ & _ & _ & Hfields).
  exists r. split; [exact Hr|].
  destruct (Hfields _ eq_refl eq_refl) as (Hstock & _). exact Hstock.
Defined.

(** An add whose create is rejected. *)
Lemma addMedicine_create_rejected_witness :
  let run := addMedicine Demo.js Scenario.createFails Demo.payloadB2 Demo.started in
  run.1 = inr None ∧ medicines (store run.2) = [Demo.medB1; Demo.medB2].
Proof.
  destruct (addMedicine_create_rejected Demo.js Scenario.createFails Demo.payloadB2
              Demo.loaded [] (VStr "0xabc") (Error "permission denied")
              eq_refl eq_refl eq_refl)
    as (Hret & Hms & _).
  split; [exact Hret|exact Hms].
Defined.

(** An approval over two records with one identifier, the second with a
    history that cannot be spread: nothing is published. *)
Example approveMedicine_twins :
  let run := approveMedicine Demo.env "m3" {| store := Scenario.twins; calls := [] |} in
  run.1 = inr None ∧
  medicines (store run.2) = medicines Scenario.twins ∧
  calls run.2 = [EvFirestoreUpdate "m3" approvalPayload; EvClock].
Proof. by vm_compute. Qed.

(** Two updates of the record [m2]. *)
Lemma updateMedicine_twice_witness :
  let after1 := (updateMedicine Demo.env "m2" Scenario.restock Demo.started).2 in
  let after2 := (updateMedicine Demo.env "m2" Scenario.reprice after1).2 in
  medicines (store after2) !! 1%nat =
    Some (Store.mergeFields Demo.medB2 (Scenario.reprice ∪ Scenario.restock)).
Proof.
  destruct (updateMedicine_twice Demo.env "m2" Scenario.restock Scenario.reprice
              Demo.loaded [] Scenario.restock Scenario.reprice
              eq_refl eq_refl eq_refl) as (Hms & _).
  unfold Demo.started. cbv zeta. rewrite Hms. reflexivity.
Defined.

(** The cards and the rows for a shelf of six records. *)
Example summary_shelf :
  Page.summary Demo.js Scenario.shelf =
    {[ "In Stock" := 1%nat; "Low Stock" := 2%nat; "Out of Stock" := 3%nat;
       "Total" := 6%nat ]} ∧
  Page.filtered Demo.js "In Stock" Scenario.shelf = [Scenario.stocked Num.fifty_one] ∧
  Page.filtered Demo.js "Out of Stock" Scenario.shelf =
    [Scenario.stocked Num.zero; Demo.medB2; Scenario.stocked Num.NaN].
Proof. by vm_compute. Qed.

(** The page of a store whose automatic load failed, after an add and an
    approval. *)
Lemma loader_after_autoLoad_witness :
  Page.showsLoader
    (store (performAll Demo.js Demo.offline
              [OpAdd Demo.payloadB2; OpApprove "m1"]
              (autoLoad Demo.js Demo.offline))) = true.
Proof.
  destruct (loader_after_autoLoad Demo.js Demo.offline
              [OpAdd Demo.payloadB2; OpApprove "m1"] eq_refl) as (H & _).
  exact H.
Defined.
